(** * Transport Quality Recorder: the cargo integrity state engine

    A shallow embedding of [transport-dashboard.jsx]: the crop threshold
    table, the three status classifiers, the market loss formula, and the
    [Dashboard] component read as a state machine whose events are the
    user's controls and the browser's timers.

    Numbers.  JavaScript numbers are modelled as exact rationals ([Q]);
    every literal of the source is a finite decimal.  The integrity score,
    the deductions and the incident ids only ever hold integers in the
    source (integer literals, [+], [-], [Math.max]) and are modelled in
    [Z].  Clock readings ([nowTime]) and the draws of [Math.random] are
    inputs of the events that use them.

    React.  An event's handler runs to its end, the state updaters it
    queued are applied in the order queued, and the render that follows
    (with the effect, when its dependencies changed) completes before the
    next event is taken.  A production build applies every updater once:
    [step] and [run].  The entry file mounts [Dashboard] inside
    [<StrictMode>], under which a development build runs every updater
    twice; the one updater with effects of its own is the interval's, and
    [tickStrict], [stepStrict] and [runStrict] are the callback, the
    event and the run there. *)

From Stdlib Require Import ZArith QArith Qminmax Qround Qabs.
From Stdlib Require Import List String DecimalString Bool Lia Lqa Sorted.
Import ListNotations.

Local Open Scope Z_scope.

(** ** Numbers *)

(** [a > b] on JavaScript numbers. *)
Definition gt (a b : Q) : bool :=
  if Qlt_le_dec b a then true else false.

(** [+x.toFixed(1)]: the nearest multiple of one tenth, a tie going away
    from zero ([toFixed] formats the absolute value, taking the larger
    candidate, and restores the sign). *)
Definition toFixed1 (x : Q) : Q :=
  if Qlt_le_dec x 0
  then (- (inject_Z (Qfloor (- x * 10 + (1 # 2))) / 10))%Q
  else (inject_Z (Qfloor (x * 10 + (1 # 2))) / 10)%Q.

(** ** Crop profiles *)

(** The keys of [CROP_PROFILES]; the crop selector offers exactly
    [Object.entries(CROP_PROFILES)]. *)
Inductive Crop := Tomatoes | Bananas | Potatoes.

Record CropProfile := {
  cargoValue : Q;
  tempDanger : Q;
  tempWarning : Q;
  gforceCritical : Q;
  gforceWarning : Q;
  tiltCritical : Q;
  sensitivity : string
}.

Definition CROP_PROFILES (c : Crop) : CropProfile :=
  match c with
  | Tomatoes =>
      {| cargoValue := 10000; tempDanger := 30; tempWarning := 27;
         gforceCritical := 2; gforceWarning := 15 # 10; tiltCritical := 25;
         sensitivity := "Medium" |}
  | Bananas =>
      {| cargoValue := 8000; tempDanger := 25; tempWarning := 22;
         gforceCritical := 15 # 10; gforceWarning := 1; tiltCritical := 20;
         sensitivity := "High" |}
  | Potatoes =>
      {| cargoValue := 6000; tempDanger := 35; tempWarning := 30;
         gforceCritical := 3; gforceWarning := 2; tiltCritical := 30;
         sensitivity := "Low" |}
  end.

Definition crop_eqb (a b : Crop) : bool :=
  match a, b with
  | Tomatoes, Tomatoes | Bananas, Bananas | Potatoes, Potatoes => true
  | _, _ => false
  end.

(** ** Status keys *)

(** The keys of [STATUS_COLORS]; the classifiers and the incidents' [type]
    field range over them. *)
Inductive StatusKey := critical | warning | optimal | stable | info.

Definition getTempStatusKey (temp : Q) (profile : CropProfile) : StatusKey :=
  if gt temp (tempDanger profile) then critical
  else if gt temp (tempWarning profile) then warning
  else optimal.

Definition getGForceStatusKey (g : Q) (profile : CropProfile) : StatusKey :=
  if gt g (gforceCritical profile) then critical
  else if gt g (gforceWarning profile) then warning
  else stable.

Definition getTiltStatusKey (tilt : Q) (profile : CropProfile) : StatusKey :=
  if gt tilt (tiltCritical profile) then critical
  else if gt tilt (tiltCritical profile * (6 # 10)) then warning
  else stable.

(** ** Financial formula *)

Definition calcMarketLoss (cis cargoValue : Q) : Q :=
  (- ((100 - cis) / 100 * cargoValue))%Q.

(** ** Incidents and temperature samples *)

Record Incident := {
  id : Z;
  time : string;
  event : string;
  type : StatusKey;
  gforce : Q;
  temp : Q;
  deduction : Z;
  sim : bool
}.

(** An entry of the chart's data, [{ time, temp }] (the fields renamed
    apart from the incident's). *)
Record TempSample := { at_time : string; at_temp : Q }.

Definition INITIAL_INCIDENTS : list Incident :=
  [ {| id := 1; time := "09:02"; event := "Trip Started"; type := info;
       gforce := 2 # 10; temp := 241 # 10; deduction := 0; sim := false |};
    {| id := 2; time := "09:47"; event := "Hard Braking"; type := warning;
       gforce := 18 # 10; temp := 248 # 10; deduction := 2; sim := false |};
    {| id := 3; time := "10:15"; event := "Severe Pothole"; type := critical;
       gforce := 31 # 10; temp := 253 # 10; deduction := 5; sim := false |};
    {| id := 4; time := "10:52"; event := "Sharp Corner"; type := warning;
       gforce := 14 # 10; temp := 261 # 10; deduction := 1; sim := false |};
    {| id := 5; time := "11:45"; event := "AC Fluctuation"; type := critical;
       gforce := 3 # 10; temp := 32; deduction := 7; sim := false |};
    {| id := 6; time := "12:20"; event := "Road Vibration"; type := warning;
       gforce := 11 # 10; temp := 294 # 10; deduction := 1; sim := false |};
    {| id := 7; time := "12:58"; event := "Sudden Stop"; type := warning;
       gforce := 21 # 10; temp := 285 # 10; deduction := 3; sim := false |};
    {| id := 8; time := "13:10"; event := "Destination Arrived"; type := info;
       gforce := 1 # 10; temp := 285 # 10; deduction := 0; sim := false |} ].

Definition INITIAL_TEMP_HISTORY : list TempSample :=
  [ {| at_time := "09:00"; at_temp := 24 |};
    {| at_time := "09:30"; at_temp := 243 # 10 |};
    {| at_time := "10:00"; at_temp := 249 # 10 |};
    {| at_time := "10:15"; at_temp := 253 # 10 |};
    {| at_time := "10:30"; at_temp := 258 # 10 |};
    {| at_time := "11:00"; at_temp := 265 # 10 |};
    {| at_time := "11:30"; at_temp := 272 # 10 |};
    {| at_time := "11:45"; at_temp := 32 |};
    {| at_time := "12:00"; at_temp := 314 # 10 |};
    {| at_time := "12:15"; at_temp := 301 # 10 |};
    {| at_time := "12:30"; at_temp := 296 # 10 |};
    {| at_time := "12:45"; at_temp := 291 # 10 |};
    {| at_time := "13:00"; at_temp := 285 # 10 |};
    {| at_time := "13:10"; at_temp := 285 # 10 |} ].

Definition BASE_CIS : Z := 88.

(** [incidents.reduce((s, i) => s + i.deduction, 0)] *)
Definition totalDeduction (incidents : list Incident) : Z :=
  fold_left (fun s i => s + deduction i) incidents 0.

Definition computeCIS (incidents : list Incident) : Z :=
  Z.max 0 (BASE_CIS - totalDeduction incidents).

(** ** The component's state *)

Record TripData := {
  cisScore : Z;
  currentTemp : Q;
  peakGForce : Q;
  currentTilt : Q
}.

(** The state hooks and refs of [Dashboard] that the engine reads or
    writes, and the browser's table of armed intervals.  An entry of
    [incidents] is [None] where the array holds [undefined].  An armed
    interval carries the crop whose [profile] its callback closed over.
    The two flags that only open a menu or the drawer ([dropOpen],
    [drawerOpen]) are left out. *)
Record Dashboard := {
  crop : Crop;
  isAutoPlay : bool;
  flashEvent : option string;
  newRowId : option Z;
  tripData : TripData;
  incidents : list (option Incident);
  tempHistory : list TempSample;
  idRef : Z;
  autoRef : option nat;
  intervals : list (nat * Crop);
  nextHandle : nat
}.

(** State setters, each taking an updater as React's do. *)

Definition setTripData (f : TripData -> TripData) (d : Dashboard) : Dashboard :=
  {| crop := crop d; isAutoPlay := isAutoPlay d; flashEvent := flashEvent d;
     newRowId := newRowId d; tripData := f (tripData d);
     incidents := incidents d; tempHistory := tempHistory d;
     idRef := idRef d; autoRef := autoRef d; intervals := intervals d;
     nextHandle := nextHandle d |}.

Definition setIncidents (f : list (option Incident) -> list (option Incident))
    (d : Dashboard) : Dashboard :=
  {| crop := crop d; isAutoPlay := isAutoPlay d; flashEvent := flashEvent d;
     newRowId := newRowId d; tripData := tripData d;
     incidents := f (incidents d); tempHistory := tempHistory d;
     idRef := idRef d; autoRef := autoRef d; intervals := intervals d;
     nextHandle := nextHandle d |}.

Definition setTempHistory (f : list TempSample -> list TempSample)
    (d : Dashboard) : Dashboard :=
  {| crop := crop d; isAutoPlay := isAutoPlay d; flashEvent := flashEvent d;
     newRowId := newRowId d; tripData := tripData d;
     incidents := incidents d; tempHistory := f (tempHistory d);
     idRef := idRef d; autoRef := autoRef d; intervals := intervals d;
     nextHandle := nextHandle d |}.

Definition setNewRowId (v : option Z) (d : Dashboard) : Dashboard :=
  {| crop := crop d; isAutoPlay := isAutoPlay d; flashEvent := flashEvent d;
     newRowId := v; tripData := tripData d;
     incidents := incidents d; tempHistory := tempHistory d;
     idRef := idRef d; autoRef := autoRef d; intervals := intervals d;
     nextHandle := nextHandle d |}.

Definition setFlashEvent (v : option string) (d : Dashboard) : Dashboard :=
  {| crop := crop d; isAutoPlay := isAutoPlay d; flashEvent := v;
     newRowId := newRowId d; tripData := tripData d;
     incidents := incidents d; tempHistory := tempHistory d;
     idRef := idRef d; autoRef := autoRef d; intervals := intervals d;
     nextHandle := nextHandle d |}.

Definition setIsAutoPlay (f : bool -> bool) (d : Dashboard) : Dashboard :=
  {| crop := crop d; isAutoPlay := f (isAutoPlay d); flashEvent := flashEvent d;
     newRowId := newRowId d; tripData := tripData d;
     incidents := incidents d; tempHistory := tempHistory d;
     idRef := idRef d; autoRef := autoRef d; intervals := intervals d;
     nextHandle := nextHandle d |}.

Definition setCrop (name : Crop) (d : Dashboard) : Dashboard :=
  {| crop := name; isAutoPlay := isAutoPlay d; flashEvent := flashEvent d;
     newRowId := newRowId d; tripData := tripData d;
     incidents := incidents d; tempHistory := tempHistory d;
     idRef := idRef d; autoRef := autoRef d; intervals := intervals d;
     nextHandle := nextHandle d |}.

(** [idRef.current += 1] *)
Definition bumpIdRef (d : Dashboard) : Dashboard :=
  {| crop := crop d; isAutoPlay := isAutoPlay d; flashEvent := flashEvent d;
     newRowId := newRowId d; tripData := tripData d;
     incidents := incidents d; tempHistory := tempHistory d;
     idRef := idRef d + 1; autoRef := autoRef d; intervals := intervals d;
     nextHandle := nextHandle d |}.

(** [h.slice(-n)]: the last [n] elements, all of them when there are fewer. *)
Definition slice_last {A : Type} (n : nat) (h : list A) : list A :=
  skipn (List.length h - n)%nat h.

(** The updater [h => [...h.slice(-19), s]] every writer of the history
    passes, [s] being the new sample. *)
Definition push (h : list TempSample) (s : TempSample) : list TempSample :=
  slice_last 19 h ++ [s].

(** The same with the sample [{ time: t, temp: v }] built. *)
Definition pushSample (t : string) (v : Q) (h : list TempSample)
  : list TempSample :=
  push h {| at_time := t; at_temp := v |}.

(** The updater [prev => [...prev, entry]]. *)
Definition appendEntry (entry : option Incident)
    (prev : list (option Incident)) : list (option Incident) :=
  prev ++ [entry].

(** [Math.max(0, d.cisScore - deduction)] *)
Definition penalise (deduction : Z) (score : Z) : Z :=
  Z.max 0 (score - deduction).

(** [Math.min(hi, Math.max(lo, x))], the bound the tick puts on the
    drifted temperature. *)
Definition clamp (lo hi x : Q) : Q := Qmin hi (Qmax lo x).

(** [nowTime().slice(0, 5)] of a clock reading ["HH:MM:SS"]. *)
Definition hhmm (now : string) : string := substring 0 5 now.

(** ** The handlers *)

(** [handleTempChange]: the temperature slider's [onChange]. *)
Definition handleTempChange (val : Q) (now : string) (d : Dashboard)
  : Dashboard :=
  let t := hhmm now in
  let d := setTripData (fun p =>
    {| cisScore := cisScore p; currentTemp := val;
       peakGForce := peakGForce p; currentTilt := currentTilt p |}) d in
  setTempHistory (pushSample t val) d.

(** [handleGForceChange]: the g-force slider's [onChange]. *)
Definition handleGForceChange (val : Q) (d : Dashboard) : Dashboard :=
  setTripData (fun p =>
    {| cisScore := cisScore p; currentTemp := currentTemp p;
       peakGForce := val; currentTilt := currentTilt p |}) d.

(** [handleInject].  The callback is rebuilt whenever [tripData] changes,
    so the [tripData] it closes over is the current one.  With a [type]
    that matches no branch, [entry] stays [undefined] and is appended as
    such.  The two [setTimeout] calls are the events [NewRowTimeout] and
    [FlashTimeout] below. *)
Definition handleInject (type : string) (now : string) (d : Dashboard)
  : Dashboard :=
  let closure := tripData d in
  let d := bumpIdRef d in
  let id := idRef d in
  let t := hhmm now in
  let '(entry, d) :=
    if (type =? "pothole")%string then
      let gforceVal := (35 # 10)%Q in
      let deduction := 5 in
      (Some {| id := id; time := t; event := "🕳 Simulated Pothole";
               type := critical; gforce := gforceVal;
               temp := currentTemp closure; deduction := deduction;
               sim := true |},
       setTripData (fun p =>
         {| cisScore := penalise deduction (cisScore p);
            currentTemp := currentTemp p; peakGForce := gforceVal;
            currentTilt := currentTilt p |}) d)
    else if (type =? "ac")%string then
      let tempVal := 35%Q in
      let deduction := 10 in
      (Some {| id := id; time := t; event := "🌡 Simulated AC Failure";
               type := critical; gforce := peakGForce closure;
               temp := tempVal; deduction := deduction; sim := true |},
       setTempHistory (pushSample t tempVal)
         (setTripData (fun p =>
            {| cisScore := penalise deduction (cisScore p);
               currentTemp := tempVal; peakGForce := peakGForce p;
               currentTilt := currentTilt p |}) d))
    else if (type =? "shift")%string then
      let tiltVal := 28%Q in
      let deduction := 6 in
      (Some {| id := id; time := t; event := "📦 Simulated Cargo Shift";
               type := critical; gforce := peakGForce closure;
               temp := currentTemp closure; deduction := deduction;
               sim := true |},
       setTripData (fun p =>
         {| cisScore := penalise deduction (cisScore p);
            currentTemp := currentTemp p; peakGForce := peakGForce p;
            currentTilt := tiltVal |}) d)
    else (None, d) in
  let d := setIncidents (appendEntry entry) d in
  let d := setNewRowId (Some id) d in
  setFlashEvent (Some type) d.

(** The interval's callback.  [profile] is the one the effect closed
    over; [r1], [r2], [r3] are the draws of [Math.random] for the drift,
    for whether a shock fires, and for the shock's size (drawn only when
    it fires). *)
Definition tick (profile : CropProfile) (now : string) (r1 r2 r3 : Q)
    (d : Dashboard) : Dashboard :=
  let t := hhmm now in
  let prev := tripData d in
  let drift := toFixed1 (r1 * 1 - (5 # 10))%Q in
  let newTemp := clamp 15 45 (toFixed1 (currentTemp prev + drift)%Q) in
  let shockFires := gt (3 # 10) r2 in
  let newG :=
    if shockFires
    then toFixed1 ((5 # 10) + r3 * (gforceCritical profile * (18 # 10)))%Q
    else peakGForce prev in
  let '(newCIS, d) :=
    if shockFires && gt newG (gforceCritical profile) then
      let pen :=
        if gt newG (gforceCritical profile * (15 # 10))%Q then 3 else 1 in
      let d := bumpIdRef d in
      let entry :=
        {| id := idRef d; time := t; event := "⚡ Auto: Road Shock";
           type := if gt newG (gforceCritical profile * (13 # 10))%Q
                   then critical else warning;
           gforce := newG; temp := newTemp; deduction := pen;
           sim := true |} in
      let d := setIncidents (appendEntry (Some entry)) d in
      (penalise pen (cisScore prev), setNewRowId (Some (idRef d)) d)
    else (cisScore prev, d) in
  let d := setTempHistory (pushSample t newTemp) d in
  setTripData (fun _ =>
    {| cisScore := newCIS; currentTemp := newTemp; peakGForce := newG;
       currentTilt := currentTilt prev |}) d.

(** The interval's callback in a development build.  Under
    [<StrictMode>] React calls the updater passed to [setTripData] twice
    with the same [prev] and keeps the state the second call returns.
    All else the updater does happens in both calls: each draws from
    [Math.random] anew, and each bumps [idRef] and queues its appends to
    the log and to the history. *)
Definition tickStrict (profile : CropProfile) (now : string)
    (r1 r2 r3 r1' r2' r3' : Q) (d : Dashboard) : Dashboard :=
  let first := tick profile now r1 r2 r3 d in
  tick profile now r1' r2' r3' (setTripData (fun _ => tripData d) first).

(** ** The sliders *)




(** ** The auto-play effect and the browser's intervals *)

Definition withTimers (a : option nat) (l : list (nat * Crop)) (n : nat)
    (d : Dashboard) : Dashboard :=
  {| crop := crop d; isAutoPlay := isAutoPlay d; flashEvent := flashEvent d;
     newRowId := newRowId d; tripData := tripData d;
     incidents := incidents d; tempHistory := tempHistory d;
     idRef := idRef d; autoRef := a; intervals := l; nextHandle := n |}.

(** [clearInterval(h)]; clearing [null] or a handle that is not armed
    does nothing. *)
Definition clearInterval (h : option nat) (d : Dashboard) : Dashboard :=
  match h with
  | Some h =>
      withTimers (autoRef d)
        (filter (fun p => negb (fst p =? h)%nat) (intervals d))
        (nextHandle d) d
  | None => d
  end.

(** [autoRef.current = setInterval(callback, 2000)], the callback closing
    over the profile of the crop of this render.  Handles are fresh and
    positive. *)
Definition armInterval (d : Dashboard) : Dashboard :=
  withTimers (Some (nextHandle d))
    (intervals d ++ [(nextHandle d, crop d)])
    (S (nextHandle d)) d.

(** The body of the effect. *)
Definition autoPlayEffect (d : Dashboard) : Dashboard :=
  let d := clearInterval (autoRef d) d in
  if negb (isAutoPlay d) then d else armInterval d.

(** The clean-up the effect returned, [() => clearInterval(autoRef.current)]. *)
Definition autoPlayCleanup (d : Dashboard) : Dashboard :=
  clearInterval (autoRef d) d.

(** A render after the state went from [old] to [d]: the effect's
    dependencies are [isAutoPlay] and [profile]; when one of them changed,
    the clean-up of the last run is called (that run returned one only
    when [isAutoPlay] was set) and the effect runs again. *)
Definition commit (old d : Dashboard) : Dashboard :=
  if eqb (isAutoPlay old) (isAutoPlay d) && crop_eqb (crop old) (crop d)
  then d
  else autoPlayEffect (if isAutoPlay old then autoPlayCleanup d else d).

(** ** Events *)

Inductive Event :=
| TempSlider (val : Q) (now : string)
| GForceSlider (val : Q)
| InjectClick (type : string) (now : string)
| AutoPlayClick
| CropClick (name : Crop)
| IntervalFired (h : nat) (now : string) (r1 r2 r3 : Q)
| NewRowTimeout
| FlashTimeout.

(** The crop an armed interval closed over. *)
Fixpoint armed (h : nat) (l : list (nat * Crop)) : option Crop :=
  match l with
  | [] => None
  | (h', c) :: l => if (h' =? h)%nat then Some c else armed h l
  end.

Definition step (e : Event) (d : Dashboard) : Dashboard :=
  match e with
  | TempSlider val now => handleTempChange val now d
  | GForceSlider val => handleGForceChange val d
  | InjectClick type now => handleInject type now d
  | AutoPlayClick => commit d (setIsAutoPlay negb d)
  | CropClick name => commit d (setCrop name d)
  | IntervalFired h now r1 r2 r3 =>
      match armed h (intervals d) with
      | Some c => tick (CROP_PROFILES c) now r1 r2 r3 d
      | None => d
      end
  | NewRowTimeout => setNewRowId None d
  | FlashTimeout => setFlashEvent None d
  end.

(** The state after the first render and the first run of the effect
    (which arms nothing, [isAutoPlay] being unset). *)
Definition mounted : Dashboard :=
  autoPlayEffect
    {| crop := Tomatoes; isAutoPlay := false; flashEvent := None;
       newRowId := None;
       tripData :=
         {| cisScore := computeCIS INITIAL_INCIDENTS;
            currentTemp := 285 # 10; peakGForce := 31 # 10;
            currentTilt := 12 |};
       incidents := map Some INITIAL_INCIDENTS;
       tempHistory := INITIAL_TEMP_HISTORY;
       idRef := 100; autoRef := None; intervals := []; nextHandle := 1 |}.

Definition run (es : list Event) (d : Dashboard) : Dashboard :=
  fold_left (fun d e => step e d) es d.

(** The scenario names the injection buttons pass to [onInject]. *)
Definition scenario (type : string) : bool :=
  ((type =? "pothole") || (type =? "ac") || (type =? "shift"))%string.

(** What the page's controls can emit: an injection names one of the
    three scenarios. *)
Definition offered (e : Event) : Prop :=
  match e with
  | InjectClick type _ => scenario type = true
  | _ => True
  end.

Inductive reachable : Dashboard -> Prop :=
| reach_mounted : reachable mounted
| reach_step e d : reachable d -> offered e -> reachable (step e d).

(** ** A development build *)

(** An event as a development build handles it.  The interval's callback
    runs its updater twice, the second run drawing [r']; every other
    updater of the component is pure, so that running it twice shows no
    difference, and the handlers themselves run once. *)
Definition stepStrict (e : Event) (r' : Q * Q * Q) (d : Dashboard)
  : Dashboard :=
  match e with
  | IntervalFired h now r1 r2 r3 =>
      match armed h (intervals d) with
      | Some c =>
          let '(r1', r2', r3') := r' in
          tickStrict (CROP_PROFILES c) now r1 r2 r3 r1' r2' r3' d
      | None => d
      end
  | _ => step e d
  end.

(** A run of a development build: each event comes with the draws of a
    second run of the updater, read only by a tick. *)
Definition runStrict (es : list (Event * (Q * Q * Q))) (d : Dashboard)
  : Dashboard :=
  fold_left (fun d er => stepStrict (fst er) (snd er) d) es d.

(** ** Starting and stopping *)





(** ** Observations used in the statements *)

(** The temperature samples an event appends to the chart's history, read
    off the handlers: the slider's value, the AC failure's 35 degrees, the
    drifted temperature of a tick of an armed interval. *)
Definition appended (e : Event) (d : Dashboard) : list TempSample :=
  match e with
  | TempSlider val now => [ {| at_time := hhmm now; at_temp := val |} ]
  | InjectClick type now =>
      if (type =? "ac")%string
      then [ {| at_time := hhmm now; at_temp := 35 |} ]
      else []
  | IntervalFired h now r1 _ _ =>
      match armed h (intervals d) with
      | Some _ =>
          [ {| at_time := hhmm now;
               at_temp :=
                 clamp 15 45
                   (toFixed1 (currentTemp (tripData d)
                              + toFixed1 (r1 * 1 - (5 # 10)))%Q) |} ]
      | None => []
      end
  | _ => []
  end.

(** All samples appended along a run, oldest first. *)
Fixpoint samples (es : list Event) (d : Dashboard) : list TempSample :=
  match es with
  | [] => []
  | e :: es => appended e d ++ samples es (step e d)
  end.




(** The constants the code deducts. *)
Definition code_deduction (z : Z) : Prop :=
  z = 1 \/ z = 3 \/ z = 5 \/ z = 6 \/ z = 10.

(** An incident carrying a deduction the code passes to an append. *)
Definition passed (i : Incident) : Prop :=
  code_deduction (deduction i) /\ 0 <= deduction i.

(** The ledger's invariant, with [dyn] the incidents appended since the
    mount, oldest first: the log is the seed followed by [dyn] and holds
    no [undefined]; the score is the one [computeCIS] gives for the log;
    the id counter never falls below its initial value; every appended
    incident is a simulated one, carries an id past the counter's initial
    value and one of the code's deductions; no id in the log exceeds the
    counter; and the ids increase along the log. *)
Definition log_ok (d : Dashboard) (dyn : list Incident) : Prop :=
  incidents d = map Some (INITIAL_INCIDENTS ++ dyn) /\
  cisScore (tripData d) = computeCIS (INITIAL_INCIDENTS ++ dyn) /\
  idRef mounted <= idRef d /\
  Forall (fun i => idRef mounted < id i /\
                   code_deduction (deduction i) /\
                   sim i = true) dyn /\
  Forall (fun i => id i <= idRef d) (INITIAL_INCIDENTS ++ dyn) /\
  StronglySorted Z.lt (map id (INITIAL_INCIDENTS ++ dyn)).

(** The fields an operation on the timers leaves alone. *)
Definition same_data (d' d : Dashboard) : Prop :=
  tripData d' = tripData d /\
  incidents d' = incidents d /\
  tempHistory d' = tempHistory d /\
  idRef d' = idRef d /\
  isAutoPlay d' = isAutoPlay d /\
  crop d' = crop d.

(** The armed intervals are the one [autoRef] holds while auto-play is
    set, closing over the current crop, and none otherwise. *)
Definition timers_ok (d : Dashboard) : Prop :=
  if isAutoPlay d
  then exists h, autoRef d = Some h /\ intervals d = [(h, crop d)]
  else intervals d = [].

(** At most the interval [autoRef] holds is armed. *)
Definition at_most_own (d : Dashboard) : Prop :=
  intervals d = [] \/
  exists h c, autoRef d = Some h /\ intervals d = [(h, c)].

(** A page whose ledger is empty: the score is the base score 88. *)
Definition unscathed : Dashboard :=
  setIncidents (fun _ => [])
    (setTripData (fun p =>
       {| cisScore := computeCIS []; currentTemp := currentTemp p;
          peakGForce := peakGForce p; currentTilt := currentTilt p |})
       mounted).

(** ** Values the render derives from the score *)

(** [cisColor], [cisRiskLabel] and [verdictRisk] of [Dashboard]. *)
Definition cisColor (cisScore : Z) : string :=
  if cisScore >=? 85 then "text-emerald-400"
  else if cisScore >=? 70 then "text-amber-400"
  else "text-red-400".

Definition cisRiskLabel (cisScore : Z) : string :=
  if cisScore >=? 85 then "Good Condition"
  else if cisScore >=? 70 then "Moderate Risk"
  else "High Risk".

Definition verdictRisk (cisScore : Z) : string :=
  if cisScore >=? 85 then "LOW RISK"
  else if cisScore >=? 70 then "MODERATE RISK"
  else "HIGH RISK".

(** The stroke [color] of [CircularGauge], which is passed the score. *)
Definition gaugeColor (value : Z) : string :=
  if value >=? 85 then "#10b981"
  else if value >=? 70 then "#f59e0b"
  else "#ef4444".

(** The colour of the CIS cell in [SimDrawer]'s live readout. *)
Definition readoutColor (cisScore : Z) : string :=
  if cisScore <? 70 then "#ef4444"
  else if cisScore <? 85 then "#f59e0b"
  else "#10b981".

(** The verdict's headline. *)
Definition recommendation (cisScore : Z) : string :=
  if cisScore >=? 85
  then "Recommendation: Standard cold storage. Normal shelf life expected."
  else if cisScore >=? 70
  then "Recommendation: Sell within 24 hours. Priority clearance advised."
  else "Recommendation: Immediate sale or processing. Severe damage risk.".

(** The closing sentence of the verdict's Commercial Action point. *)
Definition commercialAction (cisScore : Z) : string :=
  if cisScore <? 75 then "Route to discount retail or processing unit."
  else if cisScore <? 85 then "Inspect batch. Priority dispatch."
  else "Standard sale. No deduction required.".

(** ** What the render reads off the log *)

(** [incidents.filter(p)] for a [p] that reads a field of its argument:
    a TypeError ([None]) at an [undefined] entry. *)
Fixpoint filterRows (p : Incident -> bool) (l : list (option Incident))
  : option (list Incident) :=
  match l with
  | [] => Some []
  | None :: _ => None
  | Some i :: l =>
      match filterRows p l with
      | Some r => Some (if p i then i :: r else r)
      | None => None
      end
  end.

(** [incidents.some(p)], which stops at the first entry that satisfies
    [p]. *)
Fixpoint someRow (p : Incident -> bool) (l : list (option Incident))
  : option bool :=
  match l with
  | [] => Some false
  | None :: _ => None
  | Some i :: l => if p i then Some true else someRow p l
  end.

(** [i => i.deduction > 0] *)
Definition deducting (i : Incident) : bool := 0 <? deduction i.

(** [row.id === newRowId] *)
Definition isNew (newRowId : option Z) (row : Incident) : bool :=
  match newRowId with
  | Some n => id row =? n
  | None => false
  end.

(** The width, in percent, of an incident's bar in the degradation
    panel, [Math.min(100, (inc.deduction / 10) * 100)]. *)
Definition barWidth (inc : Incident) : Q :=
  Qmin 100 (inject_Z (deduction inc) / 10 * 100)%Q.

(** ** Other values the page computes *)

(** [pct], [dangerPct] and [warnPct] of [SimSlider]: where a value sits
    on the track, in percent. *)
Definition sliderPct (value min max : Q) : Q :=
  ((value - min) / (max - min) * 100)%Q.

(** [Math.min(...xs)] and [Math.max(...xs)] of a spread that is not
    empty; [None] for the empty spread, where they are the infinities. *)
Definition spreadMin (xs : list Q) : option Q :=
  match xs with
  | [] => None
  | x :: xs => Some (fold_left Qmin xs x)
  end.

Definition spreadMax (xs : list Q) : option Q :=
  match xs with
  | [] => None
  | x :: xs => Some (fold_left Qmax xs x)
  end.

(** The [domain] of the temperature chart's y-axis. *)
Definition yDomain (tempHistory : list TempSample) : option (Q * Q) :=
  match spreadMin (map at_temp tempHistory),
        spreadMax (map at_temp tempHistory) with
  | Some lo, Some hi => Some (Qmax 10 (lo - 2), hi + 3)%Q
  | _, _ => None
  end.

(** [String(n)] of a natural number. *)
Definition decimal (n : nat) : string :=
  NilEmpty.string_of_uint (Nat.to_uint n).

(** [s.padStart(2, "0")] *)
Definition padStart2 (s : string) : string :=
  match String.length s with
  | 0%nat => "00" ++ s
  | 1%nat => "0" ++ s
  | _ => s
  end.

(** [nowTime], the clock's hours, minutes and seconds being given. *)
Definition nowTime (hours minutes seconds : nat) : string :=
  padStart2 (decimal hours) ++ ":" ++ padStart2 (decimal minutes)
    ++ ":" ++ padStart2 (decimal seconds).

(** ** Colours and texts that follow the readings *)

(** [STATUS_COLORS[key].hex] *)
Definition statusHex (key : StatusKey) : string :=
  match key with
  | critical => "#ef4444"
  | warning => "#f59e0b"
  | optimal => "#10b981"
  | stable => "#38bdf8"
  | info => "#94a3b8"
  end.

(** The [color] [SimDrawer] passes to the temperature slider and to the
    g-force slider. *)
Definition tempSliderColor (currentTemp : Q) (profile : CropProfile)
  : string :=
  if gt currentTemp (tempDanger profile) then "#ef4444"
  else if gt currentTemp (tempWarning profile) then "#f59e0b"
  else "#10b981".

Definition gforceSliderColor (peakGForce : Q) (profile : CropProfile)
  : string :=
  if gt peakGForce (gforceCritical profile) then "#ef4444"
  else if gt peakGForce (gforceWarning profile) then "#f59e0b"
  else "#38bdf8".

(** The [trend] lines of the temperature card and of the tilt card. *)
Definition tempTrend (currentTemp : Q) (profile : CropProfile) : string :=
  if gt currentTemp (tempDanger profile) then "⚠ COLD CHAIN BREACH"
  else if gt currentTemp (tempWarning profile) then "Approaching limit"
  else "Stable".

Definition tiltTrend (currentTilt : Q) (profile : CropProfile) : string :=
  if gt currentTilt (tiltCritical profile) then "⚠ ROLLOVER RISK"
  else "No rollover risk".

(** The radius of a sample's dot on the chart: 4 for the red dot drawn
    above the danger threshold, 0 otherwise. *)
Definition dotRadius (temp : Q) (profile : CropProfile) : Z :=
  if gt temp (tempDanger profile) then 4 else 0.

(** ** Further observations *)

(** The number of tenths [toFixed1] rounds to. *)
Definition tenths (x : Q) : Z :=
  if Qlt_le_dec x 0
  then - Qfloor (- x * 10 + (1 # 2))
  else Qfloor (x * 10 + (1 # 2)).

(** A number with at most one decimal. *)
Definition one_decimal (x : Q) : Prop :=
  exists n : Z, (x == inject_Z n / 10)%Q.

(** A draw of [Math.random]. *)
Definition draw (r : Q) : Prop := (0 <= r)%Q /\ (r < 1)%Q.

(** A reading inside the temperature slider's range. *)
Definition temp_ranged (x : Q) : Prop := (15 <= x)%Q /\ (x <= 45)%Q.

(** What the temperature slider can emit: a value of its range. *)
Definition slider_ranged (e : Event) : Prop :=
  match e with
  | TempSlider val _ => temp_ranged val
  | _ => True
  end.

(** The ids the counter hands out: the [k]-th is [100 + k]. *)
Definition handed_out (n : nat) : list Z :=
  map (fun k => 100 + Z.of_nat k) (seq 1 n).

(** The log's bookkeeping, with [dyn] the incidents appended since the
    mount: the counter has gone up by one per appended incident, the
    appended incidents carry the ids handed out, in order, and each is a
    simulated one with a positive deduction of at most 10. *)
Definition count_ok (d : Dashboard) (dyn : list Incident) : Prop :=
  incidents d = map Some (INITIAL_INCIDENTS ++ dyn) /\
  idRef d = 100 + Z.of_nat (List.length dyn) /\
  map id dyn = handed_out (List.length dyn) /\
  Forall (fun i => sim i = true /\ 0 < deduction i <= 10) dyn.

(** How grave a status is. *)
Definition severity (k : StatusKey) : nat :=
  match k with
  | critical => 2
  | warning => 1
  | _ => 0
  end.

(** * Properties *)

(** ** Comparisons *)

Lemma gt_true (a b : Q) : gt a b = true <-> (b < a)%Q.
Proof.
  unfold gt. destruct (Qlt_le_dec b a) as [Hlt | Hle].
  - tauto.
  - split; [discriminate | intro H; exfalso; exact (Qlt_not_le _ _ H Hle)].
Qed.

Lemma gt_false (a b : Q) : gt a b = false <-> (a <= b)%Q.
Proof.
  unfold gt. destruct (Qlt_le_dec b a) as [Hlt | Hle].
  - split; [discriminate | intro H; exfalso; exact (Qlt_not_le _ _ Hlt H)].
  - tauto.
Qed.

Lemma crop_eqb_eq (a b : Crop) : crop_eqb a b = true <-> a = b.
Proof. destruct a, b; simpl; split; congruence. Qed.

(** ** Classification *)

Lemma gt_cases (a b : Q) :
  (gt a b = true /\ (b < a)%Q) \/ (gt a b = false /\ (a <= b)%Q).
Proof.
  destruct (gt a b) eqn:E.
  - left. split; [reflexivity | now apply gt_true].
  - right. split; [reflexivity | now apply gt_false].
Qed.

(** A two-threshold classifier of the shape all three share. *)
Lemma two_tier (x hi lo : Q) (top mid low : StatusKey) :
  top <> mid -> top <> low -> mid <> low ->
  let k := if gt x hi then top else if gt x lo then mid else low in
  (k = top <-> (hi < x)%Q) /\
  (k = mid <-> (x <= hi)%Q /\ (lo < x)%Q) /\
  (k = low <-> (x <= hi)%Q /\ (x <= lo)%Q).
Proof.
  intros Htm Htl Hml k. subst k.
  destruct (gt_cases x hi) as [[-> Hhi] | [-> Hhi]];
    [| destruct (gt_cases x lo) as [[-> Hlo] | [-> Hlo]]].
  - repeat split; try tauto; try congruence; intros;
      try (exfalso; apply (Qlt_not_le _ _ Hhi); tauto).
  - repeat split; try tauto; try congruence; intros;
      try (exfalso; apply (Qlt_not_le _ _ Hlo); tauto);
      try (exfalso; apply (Qlt_not_le hi x); tauto).
  - repeat split; try tauto; try congruence; intros;
      try (exfalso; apply (Qlt_not_le lo x); tauto);
      try (exfalso; apply (Qlt_not_le hi x); tauto).
Qed.

(** C6.  The three classifiers are functions of their arguments alone and
    compare strictly: [getTempStatusKey] is critical exactly above
    [tempDanger], warning exactly in the half-open band above
    [tempWarning] up to and including [tempDanger], optimal otherwise;
    [getGForceStatusKey] likewise with [gforceCritical] and
    [gforceWarning]; [getTiltStatusKey] is critical exactly above
    [tiltCritical] and warning exactly above six tenths of it up to and
    including it.  For Tomatoes, 30.0 is a warning and 30.1 is critical. *)
Theorem classifiers_strict_thresholds :
  (forall temp p,
     (getTempStatusKey temp p = critical <-> (tempDanger p < temp)%Q) /\
     (getTempStatusKey temp p = warning <->
        (temp <= tempDanger p)%Q /\ (tempWarning p < temp)%Q) /\
     (getTempStatusKey temp p = optimal <->
        (temp <= tempDanger p)%Q /\ (temp <= tempWarning p)%Q)) /\
  (forall g p,
     (getGForceStatusKey g p = critical <-> (gforceCritical p < g)%Q) /\
     (getGForceStatusKey g p = warning <->
        (g <= gforceCritical p)%Q /\ (gforceWarning p < g)%Q) /\
     (getGForceStatusKey g p = stable <->
        (g <= gforceCritical p)%Q /\ (g <= gforceWarning p)%Q)) /\
  (forall tilt p,
     (getTiltStatusKey tilt p = critical <-> (tiltCritical p < tilt)%Q) /\
     (getTiltStatusKey tilt p = warning <->
        (tilt <= tiltCritical p)%Q /\
        (tiltCritical p * (6 # 10) < tilt)%Q) /\
     (getTiltStatusKey tilt p = stable <->
        (tilt <= tiltCritical p)%Q /\
        (tilt <= tiltCritical p * (6 # 10))%Q)) /\
  getTempStatusKey 30 (CROP_PROFILES Tomatoes) = warning /\
  getTempStatusKey (301 # 10) (CROP_PROFILES Tomatoes) = critical.
Proof.
  split; [| split; [| split; [| split]]].
  - intros temp p. apply two_tier; discriminate.
  - intros g p. apply two_tier; discriminate.
  - intros tilt p. apply two_tier; discriminate.
  - reflexivity.
  - reflexivity.
Qed.

(** ** Financial formula *)

Lemma calcMarketLoss_linear (cis v : Q) :
  (calcMarketLoss cis v == (cis - 100) * v / 100)%Q.
Proof. unfold calcMarketLoss. field. Qed.

Lemma calcMarketLoss_increasing (s1 s2 v : Q) :
  (s1 < s2)%Q -> (0 < v)%Q ->
  (calcMarketLoss s1 v < calcMarketLoss s2 v)%Q.
Proof.
  intros Hs Hv. rewrite !calcMarketLoss_linear.
  apply Qmult_lt_compat_r; [reflexivity |].
  apply Qmult_lt_compat_r; [exact Hv |].
  apply Qplus_lt_le_compat; [exact Hs | apply Qle_refl].
Qed.

Lemma calcMarketLoss_nonpos (s v : Q) :
  (s <= 100)%Q -> (0 < v)%Q -> (calcMarketLoss s v <= 0)%Q.
Proof.
  intros Hs Hv. rewrite calcMarketLoss_linear.
  setoid_replace 0%Q with (0 * v / 100)%Q by field.
  apply Qmult_le_compat_r; [| discriminate].
  apply Qmult_le_compat_r; [| apply Qlt_le_weak; exact Hv].
  apply (Qplus_le_l _ _ 100). ring_simplify. exact Hs.
Qed.

(** C10.  [calcMarketLoss] is the formula
    [-((100 - cis) / 100 * cargoValue)]; it is 0 at score 100 and minus
    the cargo value at score 0; for a positive cargo value the loss grows
    in magnitude as the score falls (scores up to 100); and
    [calcMarketLoss 69 10000] is [-3100]. *)
Theorem market_loss_formula :
  (forall s v, calcMarketLoss s v = (- ((100 - s) / 100 * v))%Q) /\
  (forall v, (calcMarketLoss 100 v == 0)%Q) /\
  (forall v, (calcMarketLoss 0 v == - v)%Q) /\
  (forall s1 s2 v, (s1 < s2)%Q -> (s2 <= 100)%Q -> (0 < v)%Q ->
     (calcMarketLoss s1 v < calcMarketLoss s2 v)%Q /\
     (Qabs (calcMarketLoss s2 v) < Qabs (calcMarketLoss s1 v))%Q) /\
  (calcMarketLoss 69 10000 == - 3100)%Q.
Proof.
  split; [| split; [| split; [| split]]].
  - reflexivity.
  - intro v. unfold calcMarketLoss. field.
  - intro v. unfold calcMarketLoss. field.
  - intros s1 s2 v Hs H100 Hv.
    pose proof (calcMarketLoss_increasing s1 s2 v Hs Hv) as Hinc.
    split; [exact Hinc |].
    assert (H2 : (calcMarketLoss s2 v <= 0)%Q)
      by (apply calcMarketLoss_nonpos; assumption).
    assert (H1 : (calcMarketLoss s1 v <= 0)%Q).
    { apply calcMarketLoss_nonpos; [| assumption].
      apply Qlt_le_weak. eapply Qlt_le_trans; eassumption. }
    rewrite (Qabs_neg _ H2), (Qabs_neg _ H1).
    apply Qopp_lt_compat. exact Hinc.
  - reflexivity.
Qed.

(** The loss at the mounted score 69 exceeds in magnitude the loss at the
    base score 88, for the Tomatoes cargo. *)
Lemma market_loss_formula_witness :
  (calcMarketLoss 69 10000 < calcMarketLoss 88 10000)%Q /\
  (Qabs (calcMarketLoss 88 10000) < Qabs (calcMarketLoss 69 10000))%Q.
Proof.
  apply (proj1 (proj2 (proj2 (proj2 market_loss_formula))) 69 88 10000)%Q;
    reflexivity || discriminate.
Defined.

(** ** Case analyses the proofs share *)

(** The branch [handleInject] takes on a name. *)
Ltac inject_branches ty :=
  unfold handleInject;
  destruct (ty =? "pothole")%string;
    [| destruct (ty =? "ac")%string;
       [| destruct (ty =? "shift")%string]].

(** Whether a tick's shock fires and exceeds the critical g-force. *)
Ltac tick_branches :=
  unfold tick;
  match goal with
  | |- context [gt ?a ?r && gt ?g ?c] => destruct (gt a r && gt g c)
  end.

(** ** What one event does to the ledger *)

Lemma same_data_trans (a b c : Dashboard) :
  same_data a b -> same_data b c -> same_data a c.
Proof.
  unfold same_data. intros (-> & -> & -> & -> & -> & ->) H. exact H.
Qed.

Lemma clearInterval_frame (h : option nat) (d : Dashboard) :
  same_data (clearInterval h d) d.
Proof. destruct h; repeat split. Qed.

Lemma armInterval_frame (d : Dashboard) : same_data (armInterval d) d.
Proof. repeat split. Qed.

Lemma autoPlayEffect_frame (d : Dashboard) : same_data (autoPlayEffect d) d.
Proof.
  unfold autoPlayEffect.
  destruct (negb (isAutoPlay (clearInterval (autoRef d) d))).
  - apply clearInterval_frame.
  - eapply same_data_trans; [apply armInterval_frame | apply clearInterval_frame].
Qed.

Lemma commit_frame (old d : Dashboard) : same_data (commit old d) d.
Proof.
  unfold commit, autoPlayCleanup.
  destruct (eqb (isAutoPlay old) (isAutoPlay d) && crop_eqb (crop old) (crop d)).
  - repeat split.
  - eapply same_data_trans; [apply autoPlayEffect_frame |].
    destruct (isAutoPlay old); [apply clearInterval_frame | repeat split].
Qed.

Lemma scenario_cases (type : string) :
  scenario type = true ->
  type = "pothole"%string \/ type = "ac"%string \/ type = "shift"%string.
Proof.
  unfold scenario. rewrite !orb_true_iff, !String.eqb_eq. tauto.
Qed.

(** An offered event either leaves the log, the score and the id counter
    alone, or appends one incident carrying the next id and deducts its
    (constant) deduction. *)
Lemma step_ledger (e : Event) (d : Dashboard) :
  offered e ->
  (incidents (step e d) = incidents d /\
   cisScore (tripData (step e d)) = cisScore (tripData d) /\
   idRef (step e d) = idRef d) \/
  (exists i,
     incidents (step e d) = incidents d ++ [Some i] /\
     cisScore (tripData (step e d))
       = penalise (deduction i) (cisScore (tripData d)) /\
     idRef (step e d) = idRef d + 1 /\
     id i = idRef d + 1 /\
     sim i = true /\
     code_deduction (deduction i)).
Proof.
  intro Hoff. destruct e as [val now | val | ty now | | name | h now r1 r2 r3 | |];
    simpl.
  - left. repeat split.
  - left. repeat split.
  - right. simpl in Hoff. unfold code_deduction.
    destruct (scenario_cases ty Hoff) as [-> | [-> | ->]];
      unfold handleInject; simpl; eexists; repeat split; simpl; tauto.
  - left. destruct (commit_frame d (setIsAutoPlay negb d)) as (-> & -> & _ & -> & _).
    repeat split.
  - left. destruct (commit_frame d (setCrop name d)) as (-> & -> & _ & -> & _).
    repeat split.
  - destruct (armed h (intervals d)) as [c |]; [| left; repeat split].
    unfold tick, code_deduction.
    destruct (gt (3 # 10) r2 && gt _ _); simpl.
    + right. eexists. repeat split; simpl.
      destruct (gt _ (gforceCritical (CROP_PROFILES c) * (15 # 10))); tauto.
    + left. repeat split.
  - left. repeat split.
  - left. repeat split.
Qed.

(** ** The ledger's invariant *)

Lemma totalDeduction_app (l : list Incident) (i : Incident) :
  totalDeduction (l ++ [i]) = totalDeduction l + deduction i.
Proof. unfold totalDeduction. rewrite fold_left_app. reflexivity. Qed.

Lemma penalise_computeCIS (l : list Incident) (i : Incident) :
  0 <= deduction i ->
  penalise (deduction i) (computeCIS l) = computeCIS (l ++ [i]).
Proof.
  intro H. unfold penalise, computeCIS. rewrite totalDeduction_app. lia.
Qed.

Lemma code_deduction_nonneg (z : Z) : code_deduction z -> 0 <= z.
Proof. unfold code_deduction. lia. Qed.

Lemma StronglySorted_snoc (l : list Z) (x : Z) :
  StronglySorted Z.lt l -> Forall (fun y => y < x) l ->
  StronglySorted Z.lt (l ++ [x]).
Proof.
  induction 1 as [| y l Hs IH Hy]; intro Hall; simpl.
  - constructor; constructor.
  - inversion Hall as [| ? ? Hyx Hl]; subst.
    constructor; [apply IH; exact Hl |].
    apply Forall_app. split; [exact Hy | constructor; [exact Hyx | constructor]].
Qed.

Lemma StronglySorted_lt_NoDup (l : list Z) :
  StronglySorted Z.lt l -> NoDup l.
Proof.
  induction 1 as [| y l Hs IH Hy]; constructor; [| exact IH].
  intro Hin. rewrite Forall_forall in Hy. specialize (Hy y Hin). lia.
Qed.

Lemma log_ok_mounted : log_ok mounted [].
Proof.
  unfold log_ok. rewrite app_nil_r.
  split; [reflexivity |]. split; [reflexivity |]. split; [apply Z.le_refl |].
  split; [constructor |].
  split.
  - repeat constructor; simpl; lia.
  - repeat constructor; simpl; lia.
Qed.

Lemma log_ok_step (e : Event) (d : Dashboard) (dyn : list Incident) :
  offered e -> log_ok d dyn ->
  log_ok (step e d) dyn \/
  exists i, incidents (step e d) = incidents d ++ [Some i] /\
            log_ok (step e d) (dyn ++ [i]).
Proof.
  intros Hoff (Hlog & Hscore & H100 & Hdyn & Hle & Hsorted).
  destruct (step_ledger e d Hoff)
    as [(Hi & Hs & Hr) | (i & Hi & Hs & Hr & Hid & Hsim & Hded)].
  - left. unfold log_ok. rewrite Hi, Hs, Hr. repeat split; assumption.
  - right. exists i. split; [exact Hi |].
    unfold log_ok. rewrite Hi, Hs, Hr, Hlog, Hscore, !app_assoc.
    split; [rewrite (map_app Some (INITIAL_INCIDENTS ++ dyn) [i]); reflexivity |].
    split; [apply penalise_computeCIS, code_deduction_nonneg, Hded |].
    split; [lia |].
    split.
    { rewrite Forall_app. split; [exact Hdyn |].
      constructor; [| constructor]. repeat split; try assumption. lia. }
    split.
    { rewrite Forall_app. split.
      - eapply Forall_impl; [| exact Hle]. simpl. intros; lia.
      - constructor; [lia | constructor]. }
    rewrite (map_app id (INITIAL_INCIDENTS ++ dyn) [i]).
    apply StronglySorted_snoc; [exact Hsorted |].
    rewrite Forall_map. eapply Forall_impl; [| exact Hle].
    simpl. intros; lia.
Qed.

Lemma reachable_log_ok (d : Dashboard) :
  reachable d -> exists dyn, log_ok d dyn.
Proof.
  induction 1 as [| e d Hr [dyn IH] Hoff].
  - exists []. exact log_ok_mounted.
  - destruct (log_ok_step e d dyn Hoff IH) as [H | (i & _ & H)];
      eexists; exact H.
Qed.

Lemma totalDeduction_nonneg (l : list Incident) :
  Forall (fun i => 0 <= deduction i) l -> 0 <= totalDeduction l.
Proof.
  induction l as [| i l IH] using rev_ind; intro H.
  - unfold totalDeduction. simpl. lia.
  - rewrite totalDeduction_app. apply Forall_app in H as [Hl Hi].
    inversion Hi; subst. specialize (IH Hl). lia.
Qed.

Lemma seed_deductions_nonneg :
  Forall (fun i => 0 <= deduction i) INITIAL_INCIDENTS.
Proof. repeat constructor; simpl; lia. Qed.

Lemma log_ok_deductions_nonneg (d : Dashboard) (dyn : list Incident) :
  log_ok d dyn ->
  Forall (fun i => 0 <= deduction i) (INITIAL_INCIDENTS ++ dyn).
Proof.
  intros (_ & _ & _ & Hdyn & _). apply Forall_app.
  split; [exact seed_deductions_nonneg |].
  eapply Forall_impl; [| exact Hdyn].
  simpl. intros i (_ & H & _). apply code_deduction_nonneg, H.
Qed.

(** While every state updater runs once (a production build), in every
    state the page can reach (from the mount, by slider moves, injections
    of the three scenarios, auto-play toggles, ticks of the interval,
    crop switches and the highlight time-outs) the log
    holds no [undefined] and the score is [max 0 (88 - sum of the
    deductions of all incidents in the log)]; the score lies between 0
    and 100; and deducting a further non-negative deduction by
    [max 0 (score - deduction)] gives the score of the log extended by
    that incident. *)
Lemma score_ledger_single_run (d : Dashboard) :
  reachable d ->
  exists log,
    incidents d = map Some log /\
    cisScore (tripData d) = Z.max 0 (88 - totalDeduction log) /\
    0 <= cisScore (tripData d) <= 100 /\
    (forall i, 0 <= deduction i ->
       penalise (deduction i) (cisScore (tripData d))
       = Z.max 0 (88 - totalDeduction (log ++ [i]))).
Proof.
  intro Hr. destruct (reachable_log_ok d Hr) as [dyn Hok].
  pose proof (log_ok_deductions_nonneg d dyn Hok) as Hnn.
  apply totalDeduction_nonneg in Hnn.
  destruct Hok as (Hlog & Hscore & _).
  exists (INITIAL_INCIDENTS ++ dyn).
  split; [exact Hlog |]. split; [exact Hscore |].
  split.
  - rewrite Hscore. unfold computeCIS, BASE_CIS. lia.
  - intros i Hi. rewrite Hscore. apply (penalise_computeCIS _ i Hi).
Qed.

(** C1 (code bug).  In a development build the equation between the
    score and the log breaks at the first tick whose two runs of the
    updater both log a shock.  On the mounted page with auto-play
    started, a tick under the Tomatoes profile whose runs both draw a
    shock of 2.1 g appends two incidents with deduction 1 each (ids 101
    and 102) and deducts once: the log's deductions sum to 21 and the
    score stands at 68, not at [max 0 (88 - 21)], which is 67. *)
Theorem strict_tick_breaks_ledger :
  let d := step AutoPlayClick mounted in
  let d' := tickStrict (CROP_PROFILES Tomatoes) "13:15:02"
              (1 # 2) (1 # 10) (45 # 100) (1 # 2) (1 # 10) (45 # 100) d in
  exists i1 i2,
    incidents d' = map Some (INITIAL_INCIDENTS ++ [i1; i2]) /\
    id i1 = 101 /\ id i2 = 102 /\
    deduction i1 = 1 /\ deduction i2 = 1 /\
    totalDeduction (INITIAL_INCIDENTS ++ [i1; i2]) = 21 /\
    cisScore (tripData d) = 69 /\
    cisScore (tripData d') = 68 /\
    computeCIS (INITIAL_INCIDENTS ++ [i1; i2]) = 67 /\
    cisScore (tripData d') <> computeCIS (INITIAL_INCIDENTS ++ [i1; i2]).
Proof.
  intros d d'.
  let l := eval vm_compute in (incidents d') in
  match l with
  | context [Some ?a :: Some ?b :: nil] => exists a, b
  end.
  vm_compute. repeat split. discriminate.
Qed.

(** ** What is appended, in either build *)

Lemma tick_logs (profile : CropProfile) (now : string) (r1 r2 r3 : Q)
    (d : Dashboard) :
  exists logged,
    incidents (tick profile now r1 r2 r3 d) = incidents d ++ map Some logged /\
    (List.length logged <= 1)%nat /\
    Forall passed logged.
Proof.
  unfold tick. destruct (gt (3 # 10) r2 && gt _ _).
  - eexists [_]. split; [reflexivity |]. split; [simpl; lia |].
    constructor; [| constructor]. unfold passed, code_deduction. simpl.
    destruct (gt _ (gforceCritical profile * (15 # 10))); lia.
  - exists []. rewrite app_nil_r. split; [reflexivity |].
    split; [simpl; lia | constructor].
Qed.

Lemma tickStrict_logs (profile : CropProfile) (now : string)
    (r1 r2 r3 r1' r2' r3' : Q) (d : Dashboard) :
  exists logged,
    incidents (tickStrict profile now r1 r2 r3 r1' r2' r3' d)
      = incidents d ++ map Some logged /\
    (List.length logged <= 2)%nat /\
    Forall passed logged.
Proof.
  destruct (tick_logs profile now r1 r2 r3 d) as (l1 & E1 & L1 & F1).
  destruct (tick_logs profile now r1' r2' r3'
              (setTripData (fun _ => tripData d)
                 (tick profile now r1 r2 r3 d))) as (l2 & E2 & L2 & F2).
  exists (l1 ++ l2). unfold tickStrict. rewrite E2. simpl incidents.
  rewrite E1, map_app, <- app_assoc, length_app.
  split; [reflexivity |]. split; [lia |]. apply Forall_app. split; assumption.
Qed.

Lemma step_logs (e : Event) (d : Dashboard) :
  offered e ->
  exists logged,
    incidents (step e d) = incidents d ++ map Some logged /\
    (List.length logged <= 1)%nat /\
    Forall passed logged.
Proof.
  intro Hoff.
  destruct (step_ledger e d Hoff)
    as [(Hi & _) | (i & Hi & _ & _ & _ & _ & Hded)].
  - exists []. rewrite app_nil_r. split; [exact Hi |].
    split; [simpl; lia | constructor].
  - exists [i]. split; [exact Hi |]. split; [simpl; lia |].
    constructor; [| constructor].
    split; [exact Hded | apply code_deduction_nonneg, Hded].
Qed.

Lemma stepStrict_logs (e : Event) (r' : Q * Q * Q) (d : Dashboard) :
  offered e ->
  exists logged,
    incidents (stepStrict e r' d) = incidents d ++ map Some logged /\
    (List.length logged <= 2)%nat /\
    Forall passed logged.
Proof.
  intro Hoff.
  assert (Hstep : stepStrict e r' d = step e d ->
            exists logged,
              incidents (stepStrict e r' d) = incidents d ++ map Some logged /\
              (List.length logged <= 2)%nat /\ Forall passed logged).
  { intros ->. destruct (step_logs e d Hoff) as (l & E & L & F).
    exists l. split; [exact E |]. split; [lia | exact F]. }
  destruct e as [val now | val | ty now | | name | h now r1 r2 r3 | |];
    try (apply Hstep; reflexivity).
  simpl. destruct (armed h (intervals d)) as [c |].
  - destruct r' as [[r1' r2'] r3']. apply tickStrict_logs.
  - exists []. rewrite app_nil_r. split; [reflexivity |].
    split; [simpl; lia | constructor].
Qed.

Lemma runStrict_logs (es : list (Event * (Q * Q * Q))) (d : Dashboard) :
  Forall (fun er => offered (fst er)) es ->
  exists logged,
    incidents (runStrict es d) = incidents d ++ map Some logged /\
    (List.length logged <= 2 * List.length es)%nat /\
    Forall passed logged.
Proof.
  intro Hes. revert d. induction Hes as [| [e r'] es Hoff _ IH]; intro d.
  - exists []. rewrite app_nil_r. split; [reflexivity |].
    split; [simpl; lia | constructor].
  - change (runStrict ((e, r') :: es) d)
      with (runStrict es (stepStrict e r' d)).
    destruct (IH (stepStrict e r' d)) as (l2 & E2 & L2 & F2).
    destruct (stepStrict_logs e r' d Hoff) as (l1 & E1 & L1 & F1).
    exists (l1 ++ l2). rewrite E2, E1, map_app, <- app_assoc, length_app.
    split; [reflexivity |]. split; [simpl List.length; lia |].
    apply Forall_app. split; assumption.
Qed.

Lemma run_logs (es : list Event) (d : Dashboard) :
  Forall offered es ->
  exists logged,
    incidents (run es d) = incidents d ++ map Some logged /\
    (List.length logged <= List.length es)%nat /\
    Forall passed logged.
Proof.
  intro Hes. revert d. induction Hes as [| e es Hoff _ IH]; intro d.
  - exists []. rewrite app_nil_r. split; [reflexivity |].
    split; [simpl; lia | constructor].
  - change (run (e :: es) d) with (run es (step e d)).
    destruct (IH (step e d)) as (l2 & E2 & L2 & F2).
    destruct (step_logs e d Hoff) as (l1 & E1 & L1 & F1).
    exists (l1 ++ l2). rewrite E2, E1, map_app, <- app_assoc, length_app.
    split; [reflexivity |]. split; [simpl List.length; lia |].
    apply Forall_app. split; assumption.
Qed.



(** C7.  In every reachable state the log is the seed followed by the
    appended incidents; the ids increase strictly along the log, so none
    occurs twice; the counter starts past every seed id (100 against ids
    1 to 8), every appended incident's id is past every seed id, no id in
    the log exceeds the counter, and no offered event, a crop switch
    included, lowers the counter. *)
Theorem incident_ids_increasing (d : Dashboard) :
  reachable d ->
  exists dyn,
    incidents d = map Some (INITIAL_INCIDENTS ++ dyn) /\
    StronglySorted Z.lt (map id (INITIAL_INCIDENTS ++ dyn)) /\
    NoDup (map id (INITIAL_INCIDENTS ++ dyn)) /\
    Forall (fun s => id s < idRef mounted) INITIAL_INCIDENTS /\
    Forall (fun i => Forall (fun s => id s < id i) INITIAL_INCIDENTS) dyn /\
    Forall (fun i => id i <= idRef d) (INITIAL_INCIDENTS ++ dyn) /\
    (forall e, offered e ->
       idRef d <= idRef (step e d) /\
       (incidents (step e d) = incidents d \/
        exists i, incidents (step e d) = incidents d ++ [Some i] /\
                  id i = idRef (step e d) /\ idRef d < id i)).
Proof.
  intro Hr. destruct (reachable_log_ok d Hr) as [dyn Hok].
  assert (Hseed : Forall (fun s => id s < idRef mounted) INITIAL_INCIDENTS)
    by (repeat constructor).
  exists dyn. destruct Hok as (Hlog & _ & _ & Hdyn & Hle & Hsorted).
  split; [exact Hlog |]. split; [exact Hsorted |].
  split; [apply StronglySorted_lt_NoDup, Hsorted |].
  split; [exact Hseed |].
  split.
  { eapply Forall_impl; [| exact Hdyn]. simpl. intros i (Hi & _).
    eapply Forall_impl; [| exact Hseed]. simpl. intros; lia. }
  split; [exact Hle |].
  intros e Hoff.
  destruct (step_ledger e d Hoff)
    as [(Hi & _ & Hc) | (i & Hi & _ & Hc & Hid & _)].
  - rewrite Hc. split; [lia | left; exact Hi].
  - rewrite Hc. split; [lia |]. right. exists i. repeat split; [exact Hi | lia ..].
Qed.

Lemma incident_ids_increasing_witness :
  let d := step (CropClick Bananas)
             (step (InjectClick "pothole" "13:15:00") mounted) in
  exists dyn,
    incidents d = map Some (INITIAL_INCIDENTS ++ dyn) /\
    StronglySorted Z.lt (map id (INITIAL_INCIDENTS ++ dyn)) /\
    NoDup (map id (INITIAL_INCIDENTS ++ dyn)) /\
    Forall (fun s => id s < idRef mounted) INITIAL_INCIDENTS /\
    Forall (fun i => Forall (fun s => id s < id i) INITIAL_INCIDENTS) dyn /\
    Forall (fun i => id i <= idRef d) (INITIAL_INCIDENTS ++ dyn) /\
    (forall e, offered e ->
       idRef d <= idRef (step e d) /\
       (incidents (step e d) = incidents d \/
        exists i, incidents (step e d) = incidents d ++ [Some i] /\
                  id i = idRef (step e d) /\ idRef d < id i)).
Proof.
  apply (incident_ids_increasing
           (step (CropClick Bananas)
              (step (InjectClick "pothole" "13:15:00") mounted))).
  apply reach_step; [| exact I].
  apply reach_step; [apply reach_mounted | reflexivity].
Defined.

(** ** Injection *)

Lemma pothole_score (now : string) (d : Dashboard) :
  cisScore (tripData (handleInject "pothole" now d))
  = Z.max 0 (cisScore (tripData d) - 5).
Proof. reflexivity. Qed.

Lemma pothole_run_score (nows : list string) (d : Dashboard) :
  0 <= cisScore (tripData d) ->
  cisScore (tripData (run (map (InjectClick "pothole") nows) d))
  = Z.max 0 (cisScore (tripData d) - 5 * Z.of_nat (List.length nows)).
Proof.
  revert d. induction nows as [| now nows IH]; intros d Hd.
  - simpl. lia.
  - change (run (map (InjectClick "pothole") (now :: nows)) d)
      with (run (map (InjectClick "pothole") nows)
              (handleInject "pothole" now d)).
    rewrite IH; rewrite pothole_score; simpl List.length; lia.
Qed.

(** C2.  From any state, an injection applies its row of the table as
    one override and one appended incident.  The pothole sets the
    g-force to 3.5, the AC failure (key ["ac"]) sets the temperature to
    35.0 and pushes one history sample, the cargo shift (key ["shift"])
    sets the tilt to 28; each deducts its 5, 10 or 6 from the score,
    stopping at 0, touches no other reading, and appends one critical,
    simulated incident with that deduction under the next id.  Repeated
    potholes never take the score below 0, and twenty of them from a
    score of 88 leave it at 0. *)
Theorem injection_table (d : Dashboard) (now : string) :
  (let d' := handleInject "pothole" now d in
   tripData d' =
     {| cisScore := Z.max 0 (cisScore (tripData d) - 5);
        currentTemp := currentTemp (tripData d);
        peakGForce := 35 # 10;
        currentTilt := currentTilt (tripData d) |} /\
   tempHistory d' = tempHistory d /\
   exists i, incidents d' = incidents d ++ [Some i] /\
             deduction i = 5 /\ type i = critical /\
             gforce i = 35 # 10 /\ temp i = currentTemp (tripData d) /\
             id i = idRef d + 1 /\ idRef d' = idRef d + 1 /\
             sim i = true) /\
  (let d' := handleInject "ac" now d in
   tripData d' =
     {| cisScore := Z.max 0 (cisScore (tripData d) - 10);
        currentTemp := 35;
        peakGForce := peakGForce (tripData d);
        currentTilt := currentTilt (tripData d) |} /\
   tempHistory d' =
     slice_last 19 (tempHistory d)
       ++ [ {| at_time := hhmm now; at_temp := 35 |} ] /\
   exists i, incidents d' = incidents d ++ [Some i] /\
             deduction i = 10 /\ type i = critical /\
             gforce i = peakGForce (tripData d) /\ temp i = 35%Q /\
             id i = idRef d + 1 /\ idRef d' = idRef d + 1 /\
             sim i = true) /\
  (let d' := handleInject "shift" now d in
   tripData d' =
     {| cisScore := Z.max 0 (cisScore (tripData d) - 6);
        currentTemp := currentTemp (tripData d);
        peakGForce := peakGForce (tripData d);
        currentTilt := 28 |} /\
   tempHistory d' = tempHistory d /\
   exists i, incidents d' = incidents d ++ [Some i] /\
             deduction i = 6 /\ type i = critical /\
             gforce i = peakGForce (tripData d) /\
             temp i = currentTemp (tripData d) /\
             id i = idRef d + 1 /\ idRef d' = idRef d + 1 /\
             sim i = true) /\
  (forall nows,
     cisScore (tripData d) = 88 ->
     0 <= cisScore (tripData (run (map (InjectClick "pothole") nows) d)) /\
     (List.length nows = 20%nat ->
      cisScore (tripData (run (map (InjectClick "pothole") nows) d)) = 0)).
Proof.
  split; [| split; [| split; [| ]]].
  - simpl. split; [reflexivity |]. split; [reflexivity |].
    eexists. repeat split.
  - simpl. split; [reflexivity |]. split; [reflexivity |].
    eexists. repeat split.
  - simpl. split; [reflexivity |]. split; [reflexivity |].
    eexists. repeat split.
  - intros nows H88.
    rewrite pothole_run_score by lia. rewrite H88.
    split; [lia |]. intros ->. reflexivity.
Qed.

Lemma injection_table_witness :
  let nows := repeat "13:15:00"%string 20 in
  cisScore (tripData unscathed) = 88 /\
  peakGForce (tripData (handleInject "pothole" "13:15:00" unscathed))
    = 35 # 10 /\
  cisScore (tripData (run (map (InjectClick "pothole") nows) unscathed)) = 0.
Proof.
  pose proof (injection_table unscathed "13:15:00") as (Hp & _ & _ & Hrun).
  split; [reflexivity |].
  split; [exact (f_equal peakGForce (proj1 Hp)) |].
  exact (proj2 (Hrun (repeat "13:15:00"%string 20) eq_refl) eq_refl).
Defined.

(** The scenario of the mounted page: the seed leaves the score at 69;
    an AC failure brings it to 59 with the temperature at 35.0, which is
    critical for Tomatoes, and the loss on the 10000 cargo is -4100. *)
Example ac_failure_on_mounted_page :
  let d := step (InjectClick "ac" "13:15:00") mounted in
  cisScore (tripData mounted) = 69 /\
  cisScore (tripData d) = 59 /\
  currentTemp (tripData d) = 35%Q /\
  getTempStatusKey (currentTemp (tripData d)) (CROP_PROFILES (crop d))
    = critical /\
  (calcMarketLoss (inject_Z (cisScore (tripData d)))
     (cargoValue (CROP_PROFILES (crop d))) == - 4100)%Q.
Proof. repeat split. Qed.

(** ** The sliders *)

(** ** Injection of a name outside the table *)

Lemma scenario_false (type : string) :
  scenario type = false ->
  (type =? "pothole")%string = false /\
  (type =? "ac")%string = false /\
  (type =? "shift")%string = false.
Proof. unfold scenario. rewrite !orb_false_iff. tauto. Qed.


(** ** The temperature history *)

Lemma length_slice_last {A : Type} (n : nat) (l : list A) :
  List.length (slice_last n l) = Nat.min n (List.length l).
Proof. unfold slice_last. rewrite length_skipn. lia. Qed.

Lemma slice_last_all {A : Type} (n : nat) (l : list A) :
  (List.length l <= n)%nat -> slice_last n l = l.
Proof.
  intro H. unfold slice_last.
  replace (List.length l - n)%nat with 0%nat by lia. reflexivity.
Qed.

Lemma slice_last_snoc {A : Type} (n : nat) (l : list A) (x : A) :
  slice_last n l ++ [x] = slice_last (S n) (l ++ [x]).
Proof.
  unfold slice_last. rewrite length_app, skipn_app. simpl List.length.
  replace (List.length l + 1 - S n)%nat with (List.length l - n)%nat by lia.
  replace (List.length l - n - List.length l)%nat with 0%nat by lia.
  reflexivity.
Qed.

Lemma slice_last_absorb {A : Type} (n : nat) (l xs : list A) :
  slice_last n (slice_last n l ++ xs) = slice_last n (l ++ xs).
Proof.
  unfold slice_last. set (k := (List.length l - n)%nat).
  assert (E : skipn k l ++ xs = skipn k (l ++ xs)).
  { rewrite skipn_app. replace (k - List.length l)%nat with 0%nat by lia.
    reflexivity. }
  rewrite E, skipn_skipn. f_equal.
  rewrite length_skipn, !length_app. lia.
Qed.

Lemma push_all_slice (xs h : list TempSample) :
  (List.length h <= 20)%nat ->
  fold_left push xs h = slice_last 20 (h ++ xs).
Proof.
  revert h. induction xs as [| x xs IH]; intros h Hh; simpl.
  - rewrite app_nil_r. symmetry. apply slice_last_all, Hh.
  - unfold push at 2. rewrite slice_last_snoc, IH.
    + rewrite slice_last_absorb, <- app_assoc. reflexivity.
    + rewrite length_slice_last. lia.
Qed.

Lemma commit_history (old d : Dashboard) :
  tempHistory (commit old d) = tempHistory d.
Proof. apply commit_frame. Qed.

Lemma step_history (e : Event) (d : Dashboard) :
  tempHistory (step e d) = fold_left push (appended e d) (tempHistory d).
Proof.
  destruct e as [val now | val | ty now | | name | h now r1 r2 r3 | |];
    simpl; try reflexivity.
  - unfold handleInject.
    destruct (ty =? "pothole")%string eqn:Ep.
    + apply String.eqb_eq in Ep. subst ty. reflexivity.
    + destruct (ty =? "ac")%string; [reflexivity |].
      destruct (ty =? "shift")%string; reflexivity.
  - rewrite commit_history. reflexivity.
  - rewrite commit_history. reflexivity.
  - destruct (armed h (intervals d)) as [c |]; [| reflexivity].
    tick_branches; reflexivity.
Qed.

Lemma run_history (es : list Event) (d : Dashboard) :
  tempHistory (run es d) = fold_left push (samples es d) (tempHistory d).
Proof.
  revert d. induction es as [| e es IH]; intro d; [reflexivity |].
  change (run (e :: es) d) with (run es (step e d)).
  simpl samples. rewrite fold_left_app, IH, step_history. reflexivity.
Qed.

Lemma history_bounded (d : Dashboard) :
  reachable d -> (List.length (tempHistory d) <= 20)%nat.
Proof.
  induction 1 as [| e d Hr IH Hoff].
  - simpl. lia.
  - rewrite step_history, (push_all_slice _ _ IH), length_slice_last. lia.
Qed.

(** C8.  In every reachable state the temperature history holds at most
    20 samples.  After any run of events from there it is the last 20 of
    the old history followed by the samples the run appended, in the
    order they were appended; so when the run (slider moves, AC failures
    and ticks in any mix) appended 25 samples, the history is exactly
    the 20 latest of them, oldest first: the first five are gone. *)
Theorem temp_history_ring (d : Dashboard) (es : list Event) :
  reachable d ->
  (List.length (tempHistory d) <= 20)%nat /\
  tempHistory (run es d) = slice_last 20 (tempHistory d ++ samples es d) /\
  (List.length (tempHistory (run es d)) <= 20)%nat /\
  (List.length (samples es d) = 25%nat ->
   tempHistory (run es d) = skipn 5 (samples es d) /\
   List.length (tempHistory (run es d)) = 20%nat).
Proof.
  intro Hr. pose proof (history_bounded d Hr) as Hb.
  assert (Hrun : tempHistory (run es d)
                 = slice_last 20 (tempHistory d ++ samples es d))
    by (rewrite run_history; apply push_all_slice, Hb).
  split; [exact Hb |]. split; [exact Hrun |].
  split; [rewrite Hrun, length_slice_last; lia |].
  intro H25. rewrite Hrun. split.
  - unfold slice_last. rewrite length_app, H25, skipn_app.
    replace (List.length (tempHistory d) + 25 - 20)%nat
      with (List.length (tempHistory d) + 5)%nat by lia.
    rewrite skipn_all2 by lia.
    replace (List.length (tempHistory d) + 5 - List.length (tempHistory d))%nat
      with 5%nat by lia.
    reflexivity.
  - rewrite length_slice_last, length_app, H25. lia.
Qed.

Lemma temp_history_ring_witness :
  let es :=
    [AutoPlayClick;
     IntervalFired 1 "13:15:02" (9 # 10) (1 # 10) (99 # 100);
     InjectClick "ac" "13:15:30"]
    ++ map (fun n => TempSlider (inject_Z (Z.of_nat n)) "13:16:00")
         (seq 20 23) in
  List.length (samples es mounted) = 25%nat /\
  tempHistory (run es mounted) = skipn 5 (samples es mounted) /\
  List.length (tempHistory (run es mounted)) = 20%nat.
Proof.
  split; [vm_compute; reflexivity |].
  apply (temp_history_ring mounted
           ([AutoPlayClick;
             IntervalFired 1 "13:15:02" (9 # 10) (1 # 10) (99 # 100);
             InjectClick "ac" "13:15:30"]
            ++ map (fun n => TempSlider (inject_Z (Z.of_nat n)) "13:16:00")
                 (seq 20 23))
           reach_mounted).
  vm_compute. reflexivity.
Defined.

(** ** Auto-play and the interval *)

Lemma timers_ok_mounted : timers_ok mounted.
Proof. reflexivity. Qed.

Lemma filter_own_handle (h : nat) (c : Crop) :
  filter (fun p : nat * Crop => negb (fst p =? h)%nat) [(h, c)] = [].
Proof. simpl. rewrite Nat.eqb_refl. reflexivity. Qed.

Lemma clear_own (x : Dashboard) :
  at_most_own x -> intervals (clearInterval (autoRef x) x) = [].
Proof.
  intros [Hnone | (h & c & Hh & Hl)].
  - destruct (autoRef x); simpl; rewrite ?Hnone; reflexivity.
  - rewrite Hh. simpl. rewrite Hl. apply filter_own_handle.
Qed.

(** The effect leaves exactly the interval it arms, or none. *)
Lemma autoPlayEffect_timers_ok (x : Dashboard) :
  at_most_own x -> timers_ok (autoPlayEffect x).
Proof.
  intro Hown. pose proof (clear_own x Hown) as Hclear.
  destruct (clearInterval_frame (autoRef x) x) as (_ & _ & _ & _ & Hplay & _).
  unfold autoPlayEffect.
  set (y := clearInterval (autoRef x) x) in *.
  rewrite Hplay. destruct (isAutoPlay x); cbn [negb]; unfold timers_ok.
  - change (isAutoPlay (armInterval y)) with (isAutoPlay y). rewrite Hplay.
    exists (nextHandle y). split; [reflexivity |].
    change (intervals (armInterval y))
      with (intervals y ++ [(nextHandle y, crop y)]).
    rewrite Hclear. reflexivity.
  - rewrite Hplay. exact Hclear.
Qed.

Lemma timers_ok_own (x : Dashboard) : timers_ok x -> at_most_own x.
Proof.
  unfold timers_ok, at_most_own. destruct (isAutoPlay x).
  - intros (h & Hh & Hl). right. exists h, (crop x). split; assumption.
  - intro H. left. exact H.
Qed.

Lemma commit_timers_ok (old d : Dashboard) :
  timers_ok old ->
  autoRef d = autoRef old -> intervals d = intervals old ->
  timers_ok (commit old d).
Proof.
  intros Hold Ha Hi. unfold commit, autoPlayCleanup.
  assert (Hown : at_most_own d).
  { destruct (timers_ok_own old Hold) as [Hn | (h & c & Hh & Hl)].
    - left. rewrite Hi. exact Hn.
    - right. exists h, c. rewrite Ha, Hi. split; assumption. }
  destruct (eqb (isAutoPlay old) (isAutoPlay d)
            && crop_eqb (crop old) (crop d)) eqn:Esame.
  - apply andb_true_iff in Esame as [Eplay Ecrop].
    apply eqb_prop in Eplay. apply crop_eqb_eq in Ecrop.
    unfold timers_ok in *. rewrite <- Eplay, <- Ecrop, Ha, Hi. exact Hold.
  - apply autoPlayEffect_timers_ok.
    destruct (isAutoPlay old); [| exact Hown].
    left. apply clear_own, Hown.
Qed.

Lemma step_timers_ok (e : Event) (d : Dashboard) :
  timers_ok d -> timers_ok (step e d).
Proof.
  intro H.
  destruct e as [val now | val | ty now | | name | h now r1 r2 r3 | |];
    simpl; try exact H.
  - inject_branches ty; exact H.
  - apply commit_timers_ok; trivial.
  - apply commit_timers_ok; trivial.
  - destruct (armed h (intervals d)); [| exact H].
    tick_branches; exact H.
Qed.

Lemma reachable_timers_ok (d : Dashboard) : reachable d -> timers_ok d.
Proof.
  induction 1; [exact timers_ok_mounted | apply step_timers_ok; assumption].
Qed.








(** * Further properties of the code *)

(** ** Rounding to one decimal *)

Lemma Qfloor_unique (x : Q) (k : Z) :
  (inject_Z k <= x)%Q -> (x < inject_Z (k + 1))%Q -> Qfloor x = k.
Proof.
  intros Hlo Hhi.
  pose proof (Qfloor_le x) as Hf. pose proof (Qlt_floor x) as Hc.
  assert (H1 : (inject_Z (Qfloor x) < inject_Z (k + 1))%Q)
    by (eapply Qle_lt_trans; eassumption).
  assert (H2 : (inject_Z k < inject_Z (Qfloor x + 1))%Q)
    by (eapply Qle_lt_trans; eassumption).
  rewrite <- Zlt_Qlt in H1, H2. lia.
Qed.

Lemma toFixed1_tenths (x : Q) : (toFixed1 x == inject_Z (tenths x) / 10)%Q.
Proof.
  unfold toFixed1, tenths. destruct (Qlt_le_dec x 0); [| reflexivity].
  rewrite inject_Z_opp. field.
Qed.


Lemma tenths_mono (x y : Q) : (x <= y)%Q -> tenths x <= tenths y.
Proof.
  intro Hxy. unfold tenths.
  destruct (Qlt_le_dec x 0) as [Hx | Hx], (Qlt_le_dec y 0) as [Hy | Hy].
  - apply Z.opp_le_mono. rewrite !Z.opp_involutive.
    apply Qfloor_resp_le. lra.
  - assert (0 <= Qfloor (- x * 10 + (1 # 2))).
    { change 0 with (Qfloor 0). apply Qfloor_resp_le. lra. }
    assert (0 <= Qfloor (y * 10 + (1 # 2))).
    { change 0 with (Qfloor 0). apply Qfloor_resp_le. lra. }
    lia.
  - lra.
  - apply Qfloor_resp_le. lra.
Qed.

Lemma tenths_comp (x y : Q) : (x == y)%Q -> tenths x = tenths y.
Proof.
  intro H. apply Z.le_antisymm; apply tenths_mono; rewrite H; apply Qle_refl.
Qed.

Lemma tenths_fix (n : Z) : tenths (inject_Z n / 10) = n.
Proof.
  unfold tenths. destruct (Qlt_le_dec (inject_Z n / 10) 0).
  - rewrite <- (Z.opp_involutive n) at 2. f_equal.
    apply Qfloor_unique; rewrite ?inject_Z_plus, inject_Z_opp;
      change (inject_Z 1) with 1%Q; field_simplify; lra.
  - apply Qfloor_unique; rewrite ?inject_Z_plus;
      change (inject_Z 1) with 1%Q; field_simplify; lra.
Qed.

Lemma toFixed1_mono (x y : Q) : (x <= y)%Q -> (toFixed1 x <= toFixed1 y)%Q.
Proof.
  intro H. rewrite !toFixed1_tenths.
  apply tenths_mono in H. rewrite Zle_Qle in H.
  apply Qmult_le_compat_r; [exact H | discriminate].
Qed.

Lemma toFixed1_fix (x : Q) : one_decimal x -> (toFixed1 x == x)%Q.
Proof.
  intros [n Hn]. rewrite toFixed1_tenths, (tenths_comp _ _ Hn), tenths_fix.
  symmetry. exact Hn.
Qed.

Lemma toFixed1_one_decimal (x : Q) : one_decimal (toFixed1 x).
Proof. exists (tenths x). apply toFixed1_tenths. Qed.


Lemma one_decimal_comp (x y : Q) : (x == y)%Q -> one_decimal y -> one_decimal x.
Proof. intros H [n Hn]. exists n. rewrite H. exact Hn. Qed.

Lemma one_decimal_plus (x y : Q) :
  one_decimal x -> one_decimal y -> one_decimal (x + y).
Proof.
  intros [n Hn] [m Hm]. exists (n + m). rewrite Hn, Hm, inject_Z_plus. field.
Qed.

Lemma clamp_cases (lo hi x : Q) :
  (lo <= hi)%Q ->
  ((x <= lo)%Q /\ (clamp lo hi x == lo)%Q) \/
  ((hi <= x)%Q /\ (clamp lo hi x == hi)%Q) \/
  ((lo <= x)%Q /\ (x <= hi)%Q /\ (clamp lo hi x == x)%Q).
Proof.
  intro Hlh. unfold clamp.
  destruct (Q.max_spec lo x) as [[H1 E1] | [H1 E1]];
    destruct (Q.min_spec hi (Qmax lo x)) as [[H2 E2] | [H2 E2]];
    rewrite E1 in *; rewrite E2.
  - right. left. split; [lra | reflexivity].
  - right. right. split; [lra | split; [lra | reflexivity]].
  - right. left. split; [lra | reflexivity].
  - left. split; [lra | reflexivity].
Qed.

(** ** The tick *)

Lemma tick_temp (profile : CropProfile) (now : string) (r1 r2 r3 : Q)
    (d : Dashboard) :
  currentTemp (tripData (tick profile now r1 r2 r3 d))
  = clamp 15 45
      (toFixed1 (currentTemp (tripData d) + toFixed1 (r1 * 1 - (5 # 10)))%Q).
Proof. tick_branches; reflexivity. Qed.

Lemma drift_bounds (r1 : Q) :
  draw r1 ->
  (- (1 # 2) <= toFixed1 (r1 * 1 - (5 # 10)))%Q /\
  (toFixed1 (r1 * 1 - (5 # 10)) <= 1 # 2)%Q.
Proof.
  intros [H0 H1]. split.
  - setoid_replace (- (1 # 2))%Q with (toFixed1 (- (1 # 2))) by reflexivity.
    apply toFixed1_mono. lra.
  - setoid_replace (1 # 2)%Q with (toFixed1 (1 # 2)) by reflexivity.
    apply toFixed1_mono. lra.
Qed.

(** X1.  Whatever the state and the draws, a tick leaves a temperature
    with one decimal inside 15 to 45 and does not touch the tilt; and
    from a temperature with one decimal inside that range, a tick whose
    draw lies in [0, 1) moves it by half a degree at most. *)
Theorem tick_temperature_drift
    (profile : CropProfile) (now : string) (r1 r2 r3 : Q) (d : Dashboard) :
  draw r1 ->
  let t := currentTemp (tripData d) in
  let t' := currentTemp (tripData (tick profile now r1 r2 r3 d)) in
  temp_ranged t' /\
  one_decimal t' /\
  currentTilt (tripData (tick profile now r1 r2 r3 d))
    = currentTilt (tripData d) /\
  (temp_ranged t -> one_decimal t -> (Qabs (t' - t) <= 1 # 2)%Q).
Proof.
  intros Hr t t'. unfold t'. rewrite tick_temp. fold t.
  set (v := toFixed1 (t + toFixed1 (r1 * 1 - (5 # 10)))%Q).
  assert (Hlh : (15 <= 45)%Q) by discriminate.
  split; [| split; [| split]].
  - unfold temp_ranged.
    destruct (clamp_cases 15 45 v Hlh) as [[_ E] | [[_ E] | (? & ? & E)]];
      rewrite E; split; lra.
  - destruct (clamp_cases 15 45 v Hlh) as [[_ E] | [[_ E] | (_ & _ & E)]];
      apply (one_decimal_comp _ _ E).
    + exists 150. reflexivity.
    + exists 450. reflexivity.
    + apply toFixed1_one_decimal.
  - tick_branches; reflexivity.
  - intros [Hlo Hhi] Hdec.
    destruct (drift_bounds r1 Hr) as [Hd1 Hd2].
    assert (Hv : (v == t + toFixed1 (r1 * 1 - (5 # 10)))%Q).
    { apply toFixed1_fix, one_decimal_plus;
        [exact Hdec | apply toFixed1_one_decimal]. }
    apply Qabs_Qle_condition.
    destruct (clamp_cases 15 45 v Hlh) as [[? E] | [[? E] | (_ & _ & E)]];
      rewrite E; split; lra.
Qed.

Lemma tick_temperature_drift_witness :
  let d' := tick (CROP_PROFILES Tomatoes) "13:15:02" (93 # 100) (1 # 2) 0
              mounted in
  temp_ranged (currentTemp (tripData d')) /\
  one_decimal (currentTemp (tripData d')) /\
  currentTilt (tripData d') = currentTilt (tripData mounted) /\
  (Qabs (currentTemp (tripData d') - currentTemp (tripData mounted))
     <= 1 # 2)%Q.
Proof.
  destruct (tick_temperature_drift (CROP_PROFILES Tomatoes) "13:15:02"
              (93 # 100) (1 # 2) 0 mounted) as (H1 & H2 & H3 & H4).
  - split; [discriminate | reflexivity].
  - split; [exact H1 |]. split; [exact H2 |]. split; [exact H3 |].
    apply H4.
    + split; discriminate.
    + exists 285. reflexivity.
Defined.

Lemma tick_peak (profile : CropProfile) (now : string) (r1 r2 r3 : Q)
    (d : Dashboard) :
  peakGForce (tripData (tick profile now r1 r2 r3 d))
  = if gt (3 # 10) r2
    then toFixed1 ((5 # 10) + r3 * (gforceCritical profile * (18 # 10)))%Q
    else peakGForce (tripData d).
Proof. tick_branches; reflexivity. Qed.

Lemma crop_gforceCritical_pos (c : Crop) :
  (0 < gforceCritical (CROP_PROFILES c))%Q.
Proof. destruct c; reflexivity. Qed.

Lemma shock_ceiling_one_decimal (c : Crop) :
  one_decimal ((5 # 10) + gforceCritical (CROP_PROFILES c) * (18 # 10))%Q.
Proof.
  destruct c; [exists 41 | exists 32 | exists 59]; reflexivity.
Qed.

(** X3.  A tick whose second draw is 0.3 or more leaves the peak g-force
    alone.  Otherwise a shock fires and the new peak, whatever the old
    one, has one decimal and lies between 0.5 and 0.5 + 1.8 times the
    crop's critical g-force (4.1 for Tomatoes, 3.2 for Bananas, 5.9 for
    Potatoes); the draw 0.999 reaches that ceiling.  So a shock stays
    within the g-force slider's range of 0.5 to 5.0 for Tomatoes and
    Bananas, and can leave it for Potatoes. *)
Theorem tick_shock_range
    (c : Crop) (now : string) (r1 r2 r3 : Q) (d : Dashboard) :
  draw r3 ->
  let p := CROP_PROFILES c in
  let ceiling := ((5 # 10) + gforceCritical p * (18 # 10))%Q in
  let g' := peakGForce (tripData (tick p now r1 r2 r3 d)) in
  ((3 # 10 <= r2)%Q -> g' = peakGForce (tripData d)) /\
  ((r2 < 3 # 10)%Q ->
   one_decimal g' /\ (5 # 10 <= g')%Q /\ (g' <= ceiling)%Q /\
   (c <> Potatoes -> (g' <= 5)%Q)) /\
  (peakGForce (tripData (tick p now r1 0 (999 # 1000) d)) == ceiling)%Q /\
  (5 < peakGForce
         (tripData (tick (CROP_PROFILES Potatoes) now r1 0 (999 # 1000) d)))%Q.
Proof.
  intros [H0 H1] p ceiling g'. unfold g'. rewrite !tick_peak.
  split; [| split; [| split]].
  - intro Hr. apply gt_false in Hr. rewrite Hr. reflexivity.
  - intro Hr. apply gt_true in Hr. rewrite Hr.
    pose proof (crop_gforceCritical_pos c) as Hpos. fold p in Hpos.
    assert (Hlow : (5 # 10 <= toFixed1
                     ((5 # 10) + r3 * (gforceCritical p * (18 # 10))))%Q).
    { setoid_replace (5 # 10)%Q with (toFixed1 (5 # 10)) at 1 by reflexivity.
      apply toFixed1_mono. nra. }
    assert (Hhigh : (toFixed1
                       ((5 # 10) + r3 * (gforceCritical p * (18 # 10)))
                     <= ceiling)%Q).
    { rewrite <- (toFixed1_fix ceiling (shock_ceiling_one_decimal c)).
      apply toFixed1_mono. unfold ceiling. nra. }
    split; [apply toFixed1_one_decimal |].
    split; [exact Hlow |]. split; [exact Hhigh |].
    intro Hc. eapply Qle_trans; [exact Hhigh |].
    unfold ceiling, p. destruct c; try discriminate. contradiction.
  - unfold ceiling, p. destruct c; reflexivity.
  - reflexivity.
Qed.

Lemma tick_shock_range_witness :
  let g' := peakGForce
              (tripData (tick (CROP_PROFILES Tomatoes) "13:15:02"
                           (1 # 2) (1 # 10) (1 # 2) mounted)) in
  one_decimal g' /\ (5 # 10 <= g')%Q /\ (g' <= 41 # 10)%Q /\ (g' <= 5)%Q.
Proof.
  destruct (tick_shock_range Tomatoes "13:15:02" (1 # 2) (1 # 10) (1 # 2)
              mounted) as (_ & H & _).
  - split; [discriminate | reflexivity].
  - destruct (H eq_refl) as (Hd & Hlo & Hhi & H5).
    split; [exact Hd |]. split; [exact Hlo |]. split; [exact Hhi |].
    apply H5. discriminate.
Defined.




(** ** The temperature stays in the slider's range *)

Lemma clamp_ranged (x : Q) : temp_ranged (clamp 15 45 x).
Proof.
  unfold temp_ranged.
  destruct (clamp_cases 15 45 x) as [[_ E] | [[_ E] | (? & ? & E)]];
    [discriminate | rewrite E; split; lra ..].
Qed.

Lemma step_temp_ranged (e : Event) (d : Dashboard) :
  slider_ranged e ->
  temp_ranged (currentTemp (tripData d)) ->
  temp_ranged (currentTemp (tripData (step e d))).
Proof.
  intros He Hd.
  destruct e as [val now | val | ty now | | name | h now r1 r2 r3 | |];
    simpl; try exact Hd.
  - exact He.
  - inject_branches ty; simpl; try exact Hd. split; discriminate.
  - destruct (commit_frame d (setIsAutoPlay negb d)) as (-> & _). exact Hd.
  - destruct (commit_frame d (setCrop name d)) as (-> & _). exact Hd.
  - destruct (armed h (intervals d)); [| exact Hd].
    rewrite tick_temp. apply clamp_ranged.
Qed.

Lemma appended_ranged (e : Event) (d : Dashboard) :
  slider_ranged e ->
  Forall (fun s => temp_ranged (at_temp s)) (appended e d).
Proof.
  intro He.
  destruct e as [val now | val | ty now | | name | h now r1 r2 r3 | |];
    simpl; try constructor.
  - exact He.
  - constructor.
  - destruct (ty =? "ac")%string; repeat constructor; discriminate.
  - destruct (armed h (intervals d)); repeat constructor; apply clamp_ranged.
Qed.

Lemma Forall_skipn {A : Type} (P : A -> Prop) (n : nat) (l : list A) :
  Forall P l -> Forall P (skipn n l).
Proof.
  revert l. induction n as [| n IH]; intros l H; [exact H |].
  destruct l as [| x l]; [constructor |].
  simpl. apply IH. inversion H; assumption.
Qed.

Lemma Forall_push_all (P : TempSample -> Prop) (xs h : list TempSample) :
  Forall P h -> Forall P xs -> Forall P (fold_left push xs h).
Proof.
  revert h. induction xs as [| x xs IH]; intros h Hh Hxs; [exact Hh |].
  inversion Hxs; subst. simpl. apply IH; [| assumption].
  unfold push. apply Forall_app. split.
  - apply Forall_skipn, Hh.
  - constructor; [assumption | constructor].
Qed.

(** X2.  From a state whose temperature and history samples lie within
    15 to 45, any run of events in which the temperature slider only
    emits values of its range (15 to 45) keeps the temperature and every
    sample of the history within 15 to 45: injections, ticks, crop
    switches and unknown scenario names included. *)
Theorem temperature_stays_in_range (es : list Event) (d : Dashboard) :
  temp_ranged (currentTemp (tripData d)) ->
  Forall (fun s => temp_ranged (at_temp s)) (tempHistory d) ->
  Forall slider_ranged es ->
  temp_ranged (currentTemp (tripData (run es d))) /\
  Forall (fun s => temp_ranged (at_temp s)) (tempHistory (run es d)).
Proof.
  intros Ht Hh Hes. revert d Ht Hh.
  induction Hes as [| e es He _ IH]; intros d Ht Hh; [split; assumption |].
  change (run (e :: es) d) with (run es (step e d)).
  apply IH.
  - apply step_temp_ranged; assumption.
  - rewrite step_history. apply Forall_push_all; [exact Hh |].
    apply appended_ranged, He.
Qed.

Lemma temperature_stays_in_range_witness :
  let d := run [TempSlider 45 "13:15:00"; AutoPlayClick;
                IntervalFired 1 "13:15:02" (99 # 100) (1 # 10) (1 # 2);
                InjectClick "ac" "13:15:30"; TempSlider 15 "13:16:00"]
             mounted in
  temp_ranged (currentTemp (tripData d)) /\
  Forall (fun s => temp_ranged (at_temp s)) (tempHistory d).
Proof.
  apply (temperature_stays_in_range
           [TempSlider 45 "13:15:00"; AutoPlayClick;
            IntervalFired 1 "13:15:02" (99 # 100) (1 # 10) (1 # 2);
            InjectClick "ac" "13:15:30"; TempSlider 15 "13:16:00"]
           mounted).
  - split; discriminate.
  - repeat constructor; discriminate.
  - repeat constructor; discriminate.
Defined.

(** ** The score's tiers *)

Ltac tier_cases s :=
  unfold cisColor, cisRiskLabel, verdictRisk, gaugeColor, readoutColor,
    recommendation, commercialAction;
  repeat match goal with
  | |- context [s >=? ?k] => destruct (Z.geb_spec s k)
  | |- context [s <? ?k] => destruct (Z.ltb_spec s k)
  end.

(** X6.  For every score the gauge's colour and the drawer's readout
    colour are the same, and the colour class, the risk label, the
    verdict badge and the recommendation name one tier: the top one from
    85, the middle one from 70, the bottom one below.  The verdict's
    commercial action draws its lower line at 75 instead: it already
    tells to route to discount retail while the badge still says
    MODERATE RISK exactly for the scores 70 to 74. *)
Theorem score_tiers (s : Z) :
  gaugeColor s = readoutColor s /\
  ((85 <= s /\ cisColor s = "text-emerald-400"%string /\
    cisRiskLabel s = "Good Condition"%string /\
    verdictRisk s = "LOW RISK"%string /\ gaugeColor s = "#10b981"%string /\
    recommendation s =
      "Recommendation: Standard cold storage. Normal shelf life expected."%string)
   \/
   (70 <= s < 85 /\ cisColor s = "text-amber-400"%string /\
    cisRiskLabel s = "Moderate Risk"%string /\
    verdictRisk s = "MODERATE RISK"%string /\
    gaugeColor s = "#f59e0b"%string /\
    recommendation s =
      "Recommendation: Sell within 24 hours. Priority clearance advised."%string)
   \/
   (s < 70 /\ cisColor s = "text-red-400"%string /\
    cisRiskLabel s = "High Risk"%string /\
    verdictRisk s = "HIGH RISK"%string /\ gaugeColor s = "#ef4444"%string /\
    recommendation s =
      "Recommendation: Immediate sale or processing. Severe damage risk."%string))
  /\
  ((commercialAction s = "Route to discount retail or processing unit."%string
    /\ verdictRisk s = "MODERATE RISK"%string) <-> 70 <= s < 75).
Proof.
  split; [| split].
  - tier_cases s; reflexivity || lia.
  - destruct (Z_lt_le_dec s 70); [| destruct (Z_lt_le_dec s 85)].
    + right. right. split; [assumption |]. tier_cases s; repeat split; lia.
    + right. left. split; [lia |]. tier_cases s; repeat split; lia.
    + left. split; [assumption |]. tier_cases s; repeat split; lia.
  - tier_cases s;
      (split;
       [ intros [Haction Hbadge];
         try discriminate Haction; try discriminate Hbadge; lia
       | intro Hband; first [exfalso; lia | split; reflexivity] ]).
Qed.

Lemma reachable_score_range (d : Dashboard) :
  reachable d -> 0 <= cisScore (tripData d) <= 69.
Proof.
  induction 1 as [| e d Hr IH Hoff].
  - split; discriminate.
  - destruct (step_ledger e d Hoff)
      as [(_ & -> & _) | (i & _ & -> & _ & _ & _ & Hded)]; [exact IH |].
    apply code_deduction_nonneg in Hded. unfold penalise. lia.
Qed.

(** X5.  On the page the score never recovers: no offered event raises
    it, so it never exceeds the 69 the seed leaves, and every reachable
    state shows the bottom tier: a red gauge, High Risk, the HIGH RISK
    badge and the advice to route to discount retail. *)
Theorem score_never_recovers (e : Event) (d : Dashboard) :
  reachable d -> offered e ->
  cisScore (tripData (step e d)) <= cisScore (tripData d) /\
  cisScore (tripData d) <= 69 /\
  cisRiskLabel (cisScore (tripData d)) = "High Risk"%string /\
  verdictRisk (cisScore (tripData d)) = "HIGH RISK"%string /\
  gaugeColor (cisScore (tripData d)) = "#ef4444"%string /\
  commercialAction (cisScore (tripData d))
    = "Route to discount retail or processing unit."%string.
Proof.
  intros Hr Hoff. pose proof (reachable_score_range d Hr) as Hs.
  split.
  - destruct (step_ledger e d Hoff)
      as [(_ & -> & _) | (i & _ & -> & _ & _ & _ & Hded)]; [lia |].
    apply code_deduction_nonneg in Hded. unfold penalise. lia.
  - split; [lia |].
    tier_cases (cisScore (tripData d)); repeat split; lia.
Qed.

Lemma score_never_recovers_witness :
  let d := step (InjectClick "shift" "13:15:00") mounted in
  let e := IntervalFired 1 "13:15:02" (1 # 2) (1 # 10) (9 # 10) in
  cisScore (tripData (step e d)) <= cisScore (tripData d) /\
  cisScore (tripData d) <= 69 /\
  cisRiskLabel (cisScore (tripData d)) = "High Risk"%string /\
  verdictRisk (cisScore (tripData d)) = "HIGH RISK"%string /\
  gaugeColor (cisScore (tripData d)) = "#ef4444"%string /\
  commercialAction (cisScore (tripData d))
    = "Route to discount retail or processing unit."%string.
Proof.
  apply (score_never_recovers
           (IntervalFired 1 "13:15:02" (1 # 2) (1 # 10) (9 # 10))
           (step (InjectClick "shift" "13:15:00") mounted)).
  - apply reach_step; [apply reach_mounted | reflexivity].
  - exact I.
Defined.

(** ** The log only grows *)

(** X7.  The log is append-only: under every run of events the page's
    controls and timers can produce, from any state, the old log is a
    prefix of the new one, entry for entry, with at most one entry added
    per event; and so it is under a run of a development build, where a
    tick's two runs of the updater add at most two.  Nothing in the code
    removes, reorders or rewrites an entry. *)
Theorem log_append_only (es : list (Event * (Q * Q * Q))) (d : Dashboard) :
  Forall (fun er => offered (fst er)) es ->
  (exists suffix,
     incidents (run (map fst es) d) = incidents d ++ suffix /\
     (List.length suffix <= List.length es)%nat) /\
  (exists suffix,
     incidents (runStrict es d) = incidents d ++ suffix /\
     (List.length suffix <= 2 * List.length es)%nat).
Proof.
  intro Hes. split.
  - assert (Hes' : Forall offered (map fst es))
      by (apply Forall_map; exact Hes).
    destruct (run_logs (map fst es) d Hes') as (l & E & L & _).
    exists (map Some l). rewrite length_map in *.
    split; [exact E | exact L].
  - destruct (runStrict_logs es d Hes) as (l & E & L & _).
    exists (map Some l). rewrite length_map.
    split; [exact E | exact L].
Qed.

Lemma log_append_only_witness :
  let es := [(InjectClick "pothole" "13:15:00", (0, 0, 0));
             (AutoPlayClick, (0, 0, 0));
             (IntervalFired 1 "13:15:02" (1 # 2) (1 # 10) (9 # 10),
              ((1 # 2), (2 # 10), (8 # 10)))]%Q in
  (exists suffix,
     incidents (run (map fst es) mounted) = incidents mounted ++ suffix /\
     (List.length suffix <= 3)%nat) /\
  (exists suffix,
     incidents (runStrict es mounted) = incidents mounted ++ suffix /\
     (List.length suffix <= 6)%nat) /\
  List.length (incidents (run (map fst es) mounted)) = 10%nat /\
  List.length (incidents (runStrict es mounted)) = 11%nat.
Proof.
  split; [| split; [| split; vm_compute; reflexivity]];
    apply (log_append_only
             [(InjectClick "pothole" "13:15:00", (0, 0, 0));
              (AutoPlayClick, (0, 0, 0));
              (IntervalFired 1 "13:15:02" (1 # 2) (1 # 10) (9 # 10),
               ((1 # 2), (2 # 10), (8 # 10)))]%Q mounted);
    repeat constructor.
Defined.

(** ** The log's bookkeeping *)

Lemma code_deduction_bounds (z : Z) : code_deduction z -> 0 < z <= 10.
Proof. unfold code_deduction. lia. Qed.

Lemma handed_out_snoc (n : nat) :
  handed_out (S n) = handed_out n ++ [100 + Z.of_nat (S n)].
Proof. unfold handed_out. rewrite seq_S, map_app. reflexivity. Qed.

Lemma count_ok_step (e : Event) (d : Dashboard) (dyn : list Incident) :
  offered e -> count_ok d dyn ->
  count_ok (step e d) dyn \/
  exists i, incidents (step e d) = incidents d ++ [Some i] /\
            count_ok (step e d) (dyn ++ [i]).
Proof.
  intros Hoff (Hlog & Hctr & Hids & Hdyn).
  destruct (step_ledger e d Hoff)
    as [(Hi & _ & Hr) | (i & Hi & _ & Hr & Hid & Hsim & Hded)].
  - left. unfold count_ok. rewrite Hi, Hr. repeat split; assumption.
  - right. exists i. split; [exact Hi |].
    unfold count_ok. rewrite Hi, Hr, Hlog, Hctr, length_app, app_assoc.
    simpl List.length. rewrite Nat.add_1_r.
    split; [rewrite (map_app Some (INITIAL_INCIDENTS ++ dyn) [i]); reflexivity |].
    split; [lia |].
    split.
    + rewrite map_app, Hids, handed_out_snoc.
      change (map id [i]) with [id i]. do 2 f_equal. lia.
    + apply Forall_app. split; [exact Hdyn |].
      constructor; [| constructor].
      split; [exact Hsim | apply code_deduction_bounds, Hded].
Qed.

Lemma reachable_count_ok (d : Dashboard) :
  reachable d -> exists dyn, count_ok d dyn.
Proof.
  induction 1 as [| e d Hr [dyn IH] Hoff].
  - exists []. unfold count_ok. rewrite app_nil_r. repeat split. constructor.
  - destruct (count_ok_step e d dyn Hoff IH) as [H | (i & _ & H)];
      eexists; exact H.
Qed.

Lemma filterRows_defined (p : Incident -> bool) (l : list Incident) :
  filterRows p (map Some l) = Some (filter p l).
Proof.
  induction l as [| i l IH]; [reflexivity |].
  simpl. rewrite IH. reflexivity.
Qed.

Lemma someRow_defined (p : Incident -> bool) (l : list Incident) :
  someRow p (map Some l) = Some (existsb p l).
Proof.
  induction l as [| i l IH]; [reflexivity |].
  simpl. destruct (p i); [reflexivity | exact IH].
Qed.

Lemma filter_all {A : Type} (p : A -> bool) (l : list A) :
  Forall (fun x => p x = true) l -> filter p l = l.
Proof.
  induction 1 as [| x l Hx _ IH]; [reflexivity |].
  simpl. rewrite Hx, IH. reflexivity.
Qed.

(** X8.  In every reachable state the render's three counts read off the
    log succeed (no entry is [undefined]) and are tied to the number [n]
    of incidents appended since the mount: the log has [8 + n] entries,
    [6 + n] of them deduct something, exactly [n] are simulated, the
    simulation notice shows exactly when [n] is not 0, and the id counter
    stands at [100 + n]. *)
Theorem log_counters (d : Dashboard) :
  reachable d ->
  exists n : nat,
    List.length (incidents d) = (8 + n)%nat /\
    option_map (@List.length Incident) (filterRows deducting (incidents d))
      = Some (6 + n)%nat /\
    option_map (@List.length Incident) (filterRows sim (incidents d))
      = Some n /\
    someRow sim (incidents d) = Some (negb (n =? 0)%nat) /\
    idRef d = 100 + Z.of_nat n.
Proof.
  intro Hr. destruct (reachable_count_ok d Hr) as (dyn & Hlog & Hctr & _ & Hdyn).
  exists (List.length dyn). rewrite Hlog, !filterRows_defined, someRow_defined.
  rewrite !filter_app, existsb_app.
  assert (Hded : filter deducting dyn = dyn).
  { apply filter_all. eapply Forall_impl; [| exact Hdyn].
    simpl. intros i (_ & Hi). unfold deducting. apply Z.ltb_lt. lia. }
  assert (Hsim : filter sim dyn = dyn).
  { apply filter_all. eapply Forall_impl; [| exact Hdyn]. simpl. tauto. }
  rewrite Hded, Hsim. simpl option_map.
  rewrite length_map, !length_app.
  repeat split; try reflexivity; try exact Hctr.
  change (existsb sim INITIAL_INCIDENTS) with false. simpl orb. f_equal.
  destruct dyn as [| i dyn]; [reflexivity |].
  inversion Hdyn as [| ? ? [Hi _] _]; subst. simpl. rewrite Hi. reflexivity.
Qed.

Lemma log_counters_witness :
  let d := step (InjectClick "ac" "13:15:30")
             (step (InjectClick "pothole" "13:15:00") mounted) in
  exists n : nat,
    List.length (incidents d) = (8 + n)%nat /\
    option_map (@List.length Incident) (filterRows deducting (incidents d))
      = Some (6 + n)%nat /\
    option_map (@List.length Incident) (filterRows sim (incidents d))
      = Some n /\
    someRow sim (incidents d) = Some (negb (n =? 0)%nat) /\
    idRef d = 100 + Z.of_nat n.
Proof.
  apply (log_counters
           (step (InjectClick "ac" "13:15:30")
              (step (InjectClick "pothole" "13:15:00") mounted))).
  apply reach_step; [| reflexivity].
  apply reach_step; [apply reach_mounted | reflexivity].
Defined.

Lemma Some_inj {A : Type} (a b : A) : Some a = Some b -> a = b.
Proof. intro H. injection H as H. exact H. Qed.

(** X9.  The counter hands out ids without gaps: in every reachable
    state the [k]-th incident appended since the mount has id
    [100 + k], and the counter equals the id of the last one (100 when
    none was appended). *)
Theorem appended_ids_consecutive (d : Dashboard) :
  reachable d ->
  exists dyn,
    incidents d = map Some (INITIAL_INCIDENTS ++ dyn) /\
    map id dyn = handed_out (List.length dyn) /\
    (forall k i, nth_error dyn k = Some i -> id i = 101 + Z.of_nat k) /\
    idRef d = last (map id dyn) 100.
Proof.
  intro Hr. destruct (reachable_count_ok d Hr) as (dyn & Hlog & Hctr & Hids & _).
  exists dyn. split; [exact Hlog |]. split; [exact Hids |]. split.
  - intros k i Hk.
    assert (Hm : nth_error (map id dyn) k = Some (id i))
      by (rewrite nth_error_map, Hk; reflexivity).
    rewrite Hids in Hm. unfold handed_out in Hm.
    rewrite nth_error_map in Hm.
    destruct (nth_error (seq 1 (List.length dyn)) k) as [j |] eqn:Ej;
      [| discriminate Hm].
    assert (Hlt : (k < List.length dyn)%nat).
    { apply nth_error_Some. rewrite Hk. discriminate. }
    rewrite nth_error_seq in Ej.
    destruct (Nat.ltb_spec k (List.length dyn)); [| lia].
    injection Ej as <-.
    change (Some (100 + Z.of_nat (1 + k)) = Some (id i)) in Hm.
    apply Some_inj in Hm. lia.
  - rewrite Hctr, Hids. destruct (List.length dyn) as [| n]; [reflexivity |].
    rewrite handed_out_snoc, last_last. reflexivity.
Qed.

Lemma appended_ids_consecutive_witness :
  let d := step (InjectClick "shift" "13:15:30")
             (step (InjectClick "pothole" "13:15:00") mounted) in
  exists dyn,
    incidents d = map Some (INITIAL_INCIDENTS ++ dyn) /\
    map id dyn = handed_out (List.length dyn) /\
    (forall k i, nth_error dyn k = Some i -> id i = 101 + Z.of_nat k) /\
    idRef d = last (map id dyn) 100.
Proof.
  apply (appended_ids_consecutive
           (step (InjectClick "shift" "13:15:30")
              (step (InjectClick "pothole" "13:15:00") mounted))).
  apply reach_step; [| reflexivity].
  apply reach_step; [apply reach_mounted | reflexivity].
Defined.

(** ** An [undefined] entry and the render *)

Lemma filterRows_undefined (p : Incident -> bool)
    (l s : list (option Incident)) :
  filterRows p (l ++ None :: s) = None.
Proof.
  induction l as [| [i |] l IH]; simpl; [reflexivity | | reflexivity].
  rewrite IH. reflexivity.
Qed.

Lemma someRow_undefined (p : Incident -> bool) (l : list Incident)
    (s : list (option Incident)) :
  existsb p l = false -> someRow p (map Some l ++ None :: s) = None.
Proof.
  induction l as [| i l IH]; simpl; [reflexivity |].
  destruct (p i); [discriminate | exact IH].
Qed.

(** X10.  From any state, an injection under a name outside the table
    raises nothing and leaves its mark at once: the id counter has moved
    on, the log ends in an [undefined] entry, and each
    [incidents.filter] of the render that follows (the count of
    deducting incidents, the degradation bars, the count of simulated
    incidents) fails on reading a field of [undefined]. *)
Theorem unknown_scenario_breaks_render
    (type now : string) (d : Dashboard) (p : Incident -> bool) :
  scenario type = false ->
  let d' := handleInject type now d in
  idRef d' = idRef d + 1 /\
  incidents d' = incidents d ++ [None] /\
  filterRows p (incidents d') = None.
Proof.
  intros Hty d'.
  assert (Hinj : incidents d' = incidents d ++ [None] /\
                 idRef d' = idRef d + 1).
  { destruct (scenario_false type Hty) as (Hp & Ha & Hs).
    unfold d', handleInject. rewrite Hp, Ha, Hs. split; reflexivity. }
  destruct Hinj as [Hlog Hid].
  split; [exact Hid |]. split; [exact Hlog |].
  rewrite Hlog. apply filterRows_undefined.
Qed.

Lemma unknown_scenario_breaks_render_witness :
  let d' := handleInject "typhoon" "13:15:00"
              (step (InjectClick "pothole" "13:14:00") mounted) in
  idRef d' = 102 /\
  incidents d'
    = incidents (step (InjectClick "pothole" "13:14:00") mounted) ++ [None] /\
  filterRows sim (incidents d') = None.
Proof.
  apply (unknown_scenario_breaks_render "typhoon" "13:15:00"
           (step (InjectClick "pothole" "13:14:00") mounted) sim).
  reflexivity.
Defined.

(** ** The interval and the crop *)

(** X12.  On the page at most one interval is armed at any time; it is
    armed exactly while auto-play is set, it is the one [autoRef] holds,
    and its callback closed over the crop now selected.  So an interval
    event either does nothing or is a tick under the thresholds of the
    current crop: after a crop switch no tick runs with the old ones. *)
Theorem one_interval_current_crop (d : Dashboard) :
  reachable d ->
  (List.length (intervals d) <= 1)%nat /\
  (forall h c, armed h (intervals d) = Some c ->
     isAutoPlay d = true /\ autoRef d = Some h /\ c = crop d) /\
  (isAutoPlay d = true ->
   exists h, autoRef d = Some h /\ armed h (intervals d) = Some (crop d)) /\
  (forall h now r1 r2 r3,
     step (IntervalFired h now r1 r2 r3) d = d \/
     step (IntervalFired h now r1 r2 r3) d
       = tick (CROP_PROFILES (crop d)) now r1 r2 r3 d).
Proof.
  intro Hr. pose proof (reachable_timers_ok d Hr) as Hok.
  unfold timers_ok in Hok.
  destruct (isAutoPlay d) eqn:Ep.
  - destruct Hok as (h0 & Ha & Hl). rewrite Hl, Ha.
    split; [simpl; lia |]. split; [| split].
    + intros h c. simpl. destruct (Nat.eqb_spec h0 h); [| discriminate].
      intro Hc. apply Some_inj in Hc. subst. repeat split.
    + intros _. exists h0. split; [reflexivity |].
      simpl. rewrite Nat.eqb_refl. reflexivity.
    + intros h now r1 r2 r3. simpl. rewrite Hl. simpl.
      destruct (h0 =? h)%nat; [right | left]; reflexivity.
  - rewrite Hok. split; [simpl; lia |]. split; [| split].
    + intros h c Hc. discriminate Hc.
    + intro Hf. discriminate Hf.
    + intros h now r1 r2 r3. left. simpl. rewrite Hok. reflexivity.
Qed.

Lemma one_interval_current_crop_witness :
  let d := step (CropClick Potatoes) (step AutoPlayClick mounted) in
  (List.length (intervals d) <= 1)%nat /\
  (forall h c, armed h (intervals d) = Some c ->
     isAutoPlay d = true /\ autoRef d = Some h /\ c = crop d) /\
  (isAutoPlay d = true ->
   exists h, autoRef d = Some h /\ armed h (intervals d) = Some (crop d)) /\
  (forall h now r1 r2 r3,
     step (IntervalFired h now r1 r2 r3) d = d \/
     step (IntervalFired h now r1 r2 r3) d
       = tick (CROP_PROFILES (crop d)) now r1 r2 r3 d).
Proof.
  apply (one_interval_current_crop
           (step (CropClick Potatoes) (step AutoPlayClick mounted))).
  apply reach_step; [| exact I].
  apply reach_step; [apply reach_mounted | exact I].
Defined.

(** X13.  Selecting a crop changes the crop and nothing of the trip: the
    score, the readings, the log, the temperature history, the id
    counter and the run flag stay as they are, from any state; and
    selecting the crop already selected changes nothing at all. *)
Theorem crop_switch_keeps_trip (name : Crop) (d : Dashboard) :
  let d' := step (CropClick name) d in
  crop d' = name /\
  tripData d' = tripData d /\
  incidents d' = incidents d /\
  tempHistory d' = tempHistory d /\
  idRef d' = idRef d /\
  isAutoPlay d' = isAutoPlay d /\
  (name = crop d -> d' = d).
Proof.
  intro d'. unfold d'. simpl step.
  destruct (commit_frame d (setCrop name d)) as (Ht & Hi & Hh & Hr & Hp & Hc).
  simpl in Ht, Hi, Hh, Hr, Hp, Hc.
  repeat (split; [assumption |]).
  intros ->. unfold commit.
  assert (Hsame : setCrop (crop d) d = d) by (destruct d; reflexivity).
  rewrite Hsame, eqb_reflx.
  replace (crop_eqb (crop d) (crop d)) with true
    by (symmetry; apply crop_eqb_eq; reflexivity).
  reflexivity.
Qed.

(** ** The classifiers are monotone *)

Lemma two_tier_monotone (x y hi lo : Q) (low : StatusKey) :
  severity low = 0%nat -> (x <= y)%Q ->
  (severity (if gt x hi then critical else if gt x lo then warning else low)
   <= severity (if gt y hi then critical
                else if gt y lo then warning else low))%nat.
Proof.
  intros Hlow Hxy.
  destruct (gt_cases x hi) as [[Ex Hx] | [Ex Hx]];
    destruct (gt_cases y hi) as [[Ey Hy] | [Ey Hy]];
    destruct (gt_cases x lo) as [[Ex' Hx'] | [Ex' Hx']];
    destruct (gt_cases y lo) as [[Ey' Hy'] | [Ey' Hy']];
    rewrite Ex, Ey, ?Ex', ?Ey'; simpl; rewrite ?Hlow;
    first [lia | exfalso; lra].
Qed.

(** X15.  For every profile, whatever its thresholds, a higher reading
    never classifies as less grave than a lower one: each of the three
    classifiers is monotone from optimal or stable through warning to
    critical. *)
Theorem classifiers_monotone (p : CropProfile) (x y : Q) :
  (x <= y)%Q ->
  (severity (getTempStatusKey x p) <= severity (getTempStatusKey y p))%nat /\
  (severity (getGForceStatusKey x p)
   <= severity (getGForceStatusKey y p))%nat /\
  (severity (getTiltStatusKey x p) <= severity (getTiltStatusKey y p))%nat.
Proof.
  intro H. repeat split; apply two_tier_monotone; (reflexivity || exact H).
Qed.

Lemma classifiers_monotone_witness :
  (severity (getTempStatusKey 27 (CROP_PROFILES Bananas))
   <= severity (getTempStatusKey (285 # 10) (CROP_PROFILES Bananas)))%nat /\
  (severity (getGForceStatusKey 27 (CROP_PROFILES Bananas))
   <= severity (getGForceStatusKey (285 # 10) (CROP_PROFILES Bananas)))%nat /\
  (severity (getTiltStatusKey 27 (CROP_PROFILES Bananas))
   <= severity (getTiltStatusKey (285 # 10) (CROP_PROFILES Bananas)))%nat.
Proof.
  apply (classifiers_monotone (CROP_PROFILES Bananas) 27 (285 # 10)).
  discriminate.
Defined.

(** ** The slider's track *)

(** X16.  On a slider whose minimum lies below its maximum, the fill and
    the markers sit within the track (0 to 100 percent) exactly for the
    values within the slider's range, at 0 exactly for the minimum and at
    100 exactly for the maximum, and a larger value sits further along;
    any value outside the range, such as a shock of 5.8 g on the 0.5 to
    5.0 g-force slider, is drawn past the end of the track. *)
Theorem slider_track (v w min max : Q) :
  (min < max)%Q ->
  ((0 <= sliderPct v min max)%Q /\ (sliderPct v min max <= 100)%Q
   <-> (min <= v)%Q /\ (v <= max)%Q) /\
  ((sliderPct v min max == 0)%Q <-> (v == min)%Q) /\
  ((sliderPct v min max == 100)%Q <-> (v == max)%Q) /\
  ((v <= w)%Q <-> (sliderPct v min max <= sliderPct w min max)%Q).
Proof.
  intro Hmm.
  assert (Hpos : (0 < max - min)%Q) by lra.
  assert (Hpct : forall u,
             (sliderPct u min max * (max - min) == (u - min) * 100)%Q).
  { intro u. unfold sliderPct. field. lra. }
  assert (Hle : forall a b,
             (a <= b)%Q <-> (a * (max - min) <= b * (max - min))%Q).
  { intros a b. split; intro H.
    - apply Qmult_le_compat_r; [exact H | lra].
    - apply Qmult_le_r in H; [exact H | exact Hpos]. }
  assert (Heq : forall a b,
             (a == b)%Q <-> (a * (max - min) == b * (max - min))%Q).
  { intros a b. split; intro H.
    - rewrite H. reflexivity.
    - apply Qmult_inj_r in H; [exact H | lra]. }
  split; [| split; [| split]].
  - rewrite (Hle 0%Q), (Hle _ 100%Q), Hpct. split; intros [H1 H2]; split; lra.
  - rewrite Heq, Hpct. split; intro H; lra.
  - rewrite Heq, Hpct. split; intro H; lra.
  - rewrite (Hle (sliderPct v min max)), !Hpct. split; intro H; lra.
Qed.

Lemma slider_track_witness :
  (0 <= sliderPct (285 # 10) 15 45)%Q /\
  (sliderPct (285 # 10) 15 45 <= 100)%Q.
Proof.
  destruct (slider_track (285 # 10) 0 15 45 eq_refl) as ([_ H] & _).
  apply H. split; discriminate.
Defined.

(** ** The chart's y-axis *)

Lemma fold_min_le (xs : list Q) (x : Q) :
  (fold_left Qmin xs x <= x)%Q /\
  Forall (fun y => (fold_left Qmin xs x <= y)%Q) xs.
Proof.
  revert x. induction xs as [| y xs IH]; intro x; simpl.
  - split; [apply Qle_refl | constructor].
  - destruct (IH (Qmin x y)) as [H1 H2].
    pose proof (Q.le_min_l x y). pose proof (Q.le_min_r x y).
    split; [lra |]. constructor; [lra | exact H2].
Qed.

Lemma fold_max_ge (xs : list Q) (x : Q) :
  (x <= fold_left Qmax xs x)%Q /\
  Forall (fun y => (y <= fold_left Qmax xs x)%Q) xs.
Proof.
  revert x. induction xs as [| y xs IH]; intro x; simpl.
  - split; [apply Qle_refl | constructor].
  - destruct (IH (Qmax x y)) as [H1 H2].
    pose proof (Q.le_max_l x y). pose proof (Q.le_max_r x y).
    split; [lra |]. constructor; [lra | exact H2].
Qed.

Lemma fold_min_glb (a : Q) (xs : list Q) (x : Q) :
  (a <= x)%Q -> Forall (fun y => (a <= y)%Q) xs ->
  (a <= fold_left Qmin xs x)%Q.
Proof.
  revert x. induction xs as [| y xs IH]; intros x Hx Hxs; [exact Hx |].
  inversion Hxs; subst. simpl. apply IH; [| assumption].
  apply Q.min_glb; assumption.
Qed.

Lemma fold_max_lub (b : Q) (xs : list Q) (x : Q) :
  (x <= b)%Q -> Forall (fun y => (y <= b)%Q) xs ->
  (fold_left Qmax xs x <= b)%Q.
Proof.
  revert x. induction xs as [| y xs IH]; intros x Hx Hxs; [exact Hx |].
  inversion Hxs; subst. simpl. apply IH; [| assumption].
  apply Q.max_lub; assumption.
Qed.

Lemma push_all_nonempty (xs h : list TempSample) :
  h <> [] -> fold_left push xs h <> [].
Proof.
  revert h. induction xs as [| x xs IH]; intros h Hh; [exact Hh |].
  simpl. apply IH. unfold push. intro H.
  apply app_eq_nil in H as [_ H]. discriminate H.
Qed.

(** X17.  A temperature history that is not empty stays so under every
    run of events, so the chart's y-axis always has a domain: it runs
    from the lowest sample less 2, but not from below 10, to the highest
    sample plus 3.  Every sample lies below its upper end, and every
    sample above 10 lies above its lower end; when all samples are
    within 15 to 45 the domain lies within 13 to 48 and holds every
    sample strictly inside. *)
Theorem chart_domain (es : list Event) (d : Dashboard) :
  tempHistory d <> [] ->
  let h := tempHistory (run es d) in
  h <> [] /\
  exists lo hi,
    yDomain h = Some (lo, hi) /\
    (10 <= lo)%Q /\
    Forall (fun s => (at_temp s < hi)%Q /\
                     ((10 < at_temp s)%Q -> (lo < at_temp s)%Q)) h /\
    (Forall (fun s => temp_ranged (at_temp s)) h ->
     (13 <= lo)%Q /\ (hi <= 48)%Q /\
     Forall (fun s => (lo < at_temp s)%Q /\ (at_temp s < hi)%Q) h).
Proof.
  intros Hne h.
  assert (Hh : h <> [])
    by (unfold h; rewrite run_history; apply push_all_nonempty, Hne).
  split; [exact Hh |].
  destruct h as [| s0 h']; [contradiction |]. clear Hh.
  unfold yDomain. simpl map. simpl spreadMin. simpl spreadMax.
  set (lo := fold_left Qmin (map at_temp h') (at_temp s0)).
  set (hi := fold_left Qmax (map at_temp h') (at_temp s0)).
  destruct (fold_min_le (map at_temp h') (at_temp s0)) as [Hlo0 Hlo].
  destruct (fold_max_ge (map at_temp h') (at_temp s0)) as [Hhi0 Hhi].
  fold lo in Hlo0, Hlo. fold hi in Hhi0, Hhi.
  rewrite Forall_map in Hlo, Hhi.
  pose proof (Q.le_max_l 10 (lo - 2)) as Hfloor.
  assert (Hmax : forall x, (lo <= x)%Q -> (10 < x)%Q ->
                           (Qmax 10 (lo - 2) < x)%Q).
  { intros x Hx H10. apply Q.max_lub_lt; lra. }
  exists (Qmax 10 (lo - 2)), (hi + 3)%Q.
  split; [reflexivity |]. split; [exact Hfloor |]. split.
  - constructor.
    + split; [lra | apply Hmax; exact Hlo0].
    + rewrite Forall_forall in Hlo, Hhi. apply Forall_forall. intros s Hs.
      specialize (Hlo s Hs). specialize (Hhi s Hs).
      split; [lra | apply Hmax; exact Hlo].
  - intro Hr. inversion Hr as [| ? ? [H0lo H0hi] Hr']; subst.
    assert (Hlo15 : (15 <= lo)%Q).
    { apply fold_min_glb; [exact H0lo |]. rewrite Forall_map.
      eapply Forall_impl; [| exact Hr']. simpl. unfold temp_ranged. tauto. }
    assert (Hhi45 : (hi <= 45)%Q).
    { apply fold_max_lub; [exact H0hi |]. rewrite Forall_map.
      eapply Forall_impl; [| exact Hr']. simpl. unfold temp_ranged. tauto. }
    pose proof (Q.le_max_r 10 (lo - 2)) as Hge.
    split; [lra |]. split; [lra |].
    constructor.
    + split; [apply Hmax; lra | lra].
    + rewrite Forall_forall in Hlo, Hhi, Hr'. apply Forall_forall.
      intros s Hs. specialize (Hlo s Hs). specialize (Hhi s Hs).
      destruct (Hr' s Hs) as [Hs15 _].
      split; [apply Hmax; lra | lra].
Qed.

Lemma chart_domain_witness :
  let h := tempHistory (run [TempSlider 40 "13:15:00"] mounted) in
  h <> [] /\
  exists lo hi,
    yDomain h = Some (lo, hi) /\
    (10 <= lo)%Q /\
    Forall (fun s => (at_temp s < hi)%Q /\
                     ((10 < at_temp s)%Q -> (lo < at_temp s)%Q)) h /\
    (Forall (fun s => temp_ranged (at_temp s)) h ->
     (13 <= lo)%Q /\ (hi <= 48)%Q /\
     Forall (fun s => (lo < at_temp s)%Q /\ (at_temp s < hi)%Q) h).
Proof.
  apply (chart_domain [TempSlider 40 "13:15:00"] mounted).
  discriminate.
Defined.

(** ** The clock's label *)

Lemma string_length_app (a b : string) :
  String.length (a ++ b) = (String.length a + String.length b)%nat.
Proof. induction a as [| c a IH]; simpl; [reflexivity | rewrite IH; reflexivity]. Qed.

Lemma string_app_assoc (a b c : string) :
  ((a ++ b) ++ c = a ++ (b ++ c))%string.
Proof. induction a as [| x a IH]; simpl; [reflexivity | rewrite IH; reflexivity]. Qed.

Lemma substring_prefix (a b : string) :
  substring 0 (String.length a) (a ++ b) = a.
Proof.
  induction a as [| c a IH]; simpl.
  - destruct b; reflexivity.
  - rewrite IH. reflexivity.
Qed.

Lemma two_digits (n : nat) :
  (n < 100)%nat -> String.length (padStart2 (decimal n)) = 2%nat.
Proof.
  intro H.
  assert (Hall : forallb
                   (fun k => (String.length (padStart2 (decimal k)) =? 2)%nat)
                   (seq 0 100) = true) by (vm_compute; reflexivity).
  rewrite forallb_forall in Hall.
  apply Nat.eqb_eq, Hall, in_seq. lia.
Qed.

(** X18.  For every reading of the clock (hours below 24, minutes and
    seconds below 60) [nowTime] is eight characters long, two digits for
    each part, and the first five characters the handlers keep of it are
    the padded hours, a colon and the padded minutes: the seconds are
    dropped whole and nothing else. *)
Theorem nowTime_label (hours minutes seconds : nat) :
  (hours < 24)%nat -> (minutes < 60)%nat -> (seconds < 60)%nat ->
  String.length (nowTime hours minutes seconds) = 8%nat /\
  hhmm (nowTime hours minutes seconds)
    = (padStart2 (decimal hours) ++ ":" ++ padStart2 (decimal minutes))%string /\
  nowTime hours minutes seconds
    = (hhmm (nowTime hours minutes seconds)
       ++ ":" ++ padStart2 (decimal seconds))%string /\
  String.length (hhmm (nowTime hours minutes seconds)) = 5%nat.
Proof.
  intros Hh Hm Hs.
  assert (Lh := two_digits hours ltac:(lia)).
  assert (Lm := two_digits minutes ltac:(lia)).
  assert (Ls := two_digits seconds ltac:(lia)).
  set (a := padStart2 (decimal hours)) in *.
  set (b := padStart2 (decimal minutes)) in *.
  set (c := padStart2 (decimal seconds)) in *.
  assert (Hsplit : nowTime hours minutes seconds
                   = ((a ++ ":" ++ b) ++ ":" ++ c)%string).
  { unfold nowTime. fold a b c.
    rewrite (string_app_assoc a (":" ++ b)). reflexivity. }
  assert (L5 : String.length (a ++ ":" ++ b) = 5%nat).
  { rewrite string_length_app. simpl. rewrite Lh, Lm. reflexivity. }
  assert (Hcut : hhmm (nowTime hours minutes seconds)
                 = (a ++ ":" ++ b)%string).
  { unfold hhmm. rewrite Hsplit, <- L5. apply substring_prefix. }
  split; [| split; [| split]].
  - rewrite Hsplit, string_length_app, L5. simpl. rewrite Ls. reflexivity.
  - exact Hcut.
  - rewrite Hcut. exact Hsplit.
  - rewrite Hcut. exact L5.
Qed.

Lemma nowTime_label_witness :
  String.length (nowTime 9 2 7) = 8%nat /\
  hhmm (nowTime 9 2 7)
    = (padStart2 (decimal 9) ++ ":" ++ padStart2 (decimal 2))%string /\
  nowTime 9 2 7 = (hhmm (nowTime 9 2 7) ++ ":" ++ padStart2 (decimal 7))%string /\
  String.length (hhmm (nowTime 9 2 7)) = 5%nat.
Proof. apply (nowTime_label 9 2 7); repeat constructor. Defined.

(** ** The degradation bars *)

(** X19.  A bar of the degradation panel is ten times the deduction
    wide, in percent, for a deduction of 0 to 10 and stops at 100 beyond.
    In every reachable state no deduction in the log exceeds 10, so no
    bar is cut short: each deducting incident's bar is between 10 and 100
    percent wide and proportional to its deduction. *)
Theorem degradation_bars (d : Dashboard) :
  reachable d ->
  (forall inc, 0 <= deduction inc <= 10 ->
     (barWidth inc == inject_Z (10 * deduction inc))%Q) /\
  (forall inc, 10 <= deduction inc -> (barWidth inc == 100)%Q) /\
  exists log,
    incidents d = map Some log /\
    filterRows deducting (incidents d) = Some (filter deducting log) /\
    Forall (fun inc =>
              (barWidth inc == inject_Z (10 * deduction inc))%Q /\
              (10 <= barWidth inc)%Q /\ (barWidth inc <= 100)%Q)
           (filter deducting log).
Proof.
  intro Hr.
  assert (Hlin : forall inc,
             (inject_Z (deduction inc) / 10 * 100
              == inject_Z (10 * deduction inc))%Q).
  { intro inc. rewrite inject_Z_mult. field. }
  assert (Hsmall : forall inc, 0 <= deduction inc <= 10 ->
             (barWidth inc == inject_Z (10 * deduction inc))%Q).
  { intros inc H. unfold barWidth. rewrite Hlin. apply Q.min_r.
    change 100%Q with (inject_Z 100). rewrite <- Zle_Qle. lia. }
  split; [exact Hsmall |]. split.
  - intros inc H. unfold barWidth. rewrite Hlin. apply Q.min_l.
    change 100%Q with (inject_Z 100). rewrite <- Zle_Qle. lia.
  - destruct (reachable_count_ok d Hr) as (dyn & Hlog & _ & _ & Hdyn).
    exists (INITIAL_INCIDENTS ++ dyn).
    split; [exact Hlog |]. split; [rewrite Hlog; apply filterRows_defined |].
    assert (Hall : Forall (fun inc => 0 <= deduction inc <= 10)
                     (INITIAL_INCIDENTS ++ dyn)).
    { apply Forall_app. split.
      - repeat constructor; simpl; lia.
      - eapply Forall_impl; [| exact Hdyn]. simpl. intros; lia. }
    apply Forall_forall. intros inc Hin. apply filter_In in Hin as [Hin Hded].
    rewrite Forall_forall in Hall. specialize (Hall inc Hin).
    unfold deducting in Hded. apply Z.ltb_lt in Hded.
    rewrite (Hsmall inc Hall). split; [reflexivity |].
    change 10%Q with (inject_Z 10). change 100%Q with (inject_Z 100).
    rewrite <- !Zle_Qle. lia.
Qed.

Lemma degradation_bars_witness :
  let d := step (InjectClick "ac" "13:15:00") mounted in
  (forall inc, 0 <= deduction inc <= 10 ->
     (barWidth inc == inject_Z (10 * deduction inc))%Q) /\
  (forall inc, 10 <= deduction inc -> (barWidth inc == 100)%Q) /\
  exists log,
    incidents d = map Some log /\
    filterRows deducting (incidents d) = Some (filter deducting log) /\
    Forall (fun inc =>
              (barWidth inc == inject_Z (10 * deduction inc))%Q /\
              (10 <= barWidth inc)%Q /\ (barWidth inc <= 100)%Q)
           (filter deducting log).
Proof.
  apply (degradation_bars (step (InjectClick "ac" "13:15:00") mounted)).
  apply reach_step; [apply reach_mounted | reflexivity].
Defined.

(** ** Colours and texts agree with the status keys *)

(** X20.  The colours and texts the page derives from a reading by its
    own comparisons agree with the status key of the same reading, for
    every profile: the sliders' colours are the status key's colour, the
    temperature card says COLD CHAIN BREACH exactly when the key is
    critical and Approaching limit exactly when it is warning, the tilt
    card warns of a rollover exactly when the tilt key is critical, and a
    sample gets its red dot on the chart exactly when it would classify
    as critical. *)
Theorem texts_follow_status (x : Q) (p : CropProfile) :
  tempSliderColor x p = statusHex (getTempStatusKey x p) /\
  gforceSliderColor x p = statusHex (getGForceStatusKey x p) /\
  (tempTrend x p = "⚠ COLD CHAIN BREACH"%string
   <-> getTempStatusKey x p = critical) /\
  (tempTrend x p = "Approaching limit"%string
   <-> getTempStatusKey x p = warning) /\
  (tempTrend x p = "Stable"%string <-> getTempStatusKey x p = optimal) /\
  (tiltTrend x p = "⚠ ROLLOVER RISK"%string
   <-> getTiltStatusKey x p = critical) /\
  (dotRadius x p = 4 <-> getTempStatusKey x p = critical).
Proof.
  unfold tempSliderColor, gforceSliderColor, tempTrend, tiltTrend, dotRadius,
    getTempStatusKey, getGForceStatusKey, getTiltStatusKey.
  destruct (gt x (tempDanger p)), (gt x (tempWarning p)),
    (gt x (gforceCritical p)), (gt x (gforceWarning p)),
    (gt x (tiltCritical p)), (gt x (tiltCritical p * (6 # 10)));
    repeat split; intro H; try reflexivity; discriminate H.
Qed.

(** ** The sliders' controls *)






